(** * golang-socketio: the client connection life cycle (client.go)

    A shallow embedding of [client.go]: the [Client] structure, its builder,
    [Dial], [Close], the reconnection task started by [runReconnectionTask]
    and the URL helper [GetUrl], followed by the properties of the
    specification that concern them.

    Conventions of the embedding.
    - A pointer [*Client] is a location of the heap of the [World]; the
      closure and the goroutine created by [runReconnectionTask] capture that
      location, as they capture [c] in the source.
    - A Go [error] is [option string]: [None] is [nil].
    - User callbacks are opaque: calling one is recorded in the trace of the
      world.
    - Code run under [c.lock] is one atomic step of the scheduler. *)

From Stdlib Require Import ZArith String List DecimalString Lia.
From stdpp Require Import base option gmap strings list.

Open Scope Z_scope.

(** ** Go values *)

(** [error]: an interface value, [None] for [nil]. *)
Definition error := option string.

(** [time.Duration]: a signed count of nanoseconds. *)
Definition Duration := Z.

Definition Second : Duration := 1000000000.

(** [strconv.Itoa]: the decimal digits of an [int], with a leading minus sign
    for a negative one. *)
Definition Itoa (i : Z) : string := NilZero.string_of_int (Z.to_int i).

(** A [map[string]string]; [None] is the nil map. *)
Definition gomap := option (gmap string string).

Definition len (params : gomap) : Z :=
  match params with
  | None => 0
  | Some m => Z.of_nat (size m)
  end.

Definition entries (params : gomap) : list (string * string) :=
  match params with
  | None => []
  | Some m => map_to_list m
  end.

Definition index (params : gomap) (k : string) : option string :=
  match params with
  | None => None
  | Some m => m !! k
  end.

(** [for k, v := range params] visits every entry once, in an order the
    run time chooses: [order] is an admissible iteration order of [params]. *)
Definition range_order (params : gomap) (order : list (string * string)) : Prop :=
  order ≡ₚ entries params.

(** ** The URL helper *)

Module Url.

Definition webSocketProtocol : string := "ws://".
Definition webSocketSecureProtocol : string := "wss://".
Definition socketioUrl : string := "/socket.io/?EIO=3&transport=websocket".

(** The body of the [range] loop of [GetUrl]:
    [connectionString += "&" + k + "=" + v]. *)
Definition range_body (connectionString : string) (kv : string * string) : string :=
  connectionString +:+ (("&" +:+ kv.1) +:+ "=") +:+ kv.2.

(** [GetUrl]. The iteration order of the map is an argument: Go leaves it to
    the run time. *)
Definition GetUrl (host : string) (port : Z) (secure : bool) (params : gomap)
    (order : list (string * string)) : string :=
  let prefix := if secure then webSocketSecureProtocol else webSocketProtocol in
  let connectionString :=
    (((prefix +:+ host) +:+ ":") +:+ Itoa port) +:+ socketioUrl in
  if 0 <? len params
  then fold_left range_body order connectionString
  else connectionString.

(** [GetUrl] with the iteration order of stdpp's [map_to_list]. *)
Definition GetUrl_sorted (host : string) (port : Z) (secure : bool)
    (params : gomap) : string :=
  GetUrl host port secure params (entries params).

(** What the specification expects after the fixed part of the URL: one
    ["&key=value"] per entry. *)
Fixpoint query_suffix (order : list (string * string)) : string :=
  match order with
  | [] => ""
  | (k, v) :: rest => "&" +:+ k +:+ "=" +:+ v +:+ query_suffix rest
  end.

End Url.

(** ** Data model *)

(** A heap address: the value of a [*Client]. *)
Definition loc := positive.

(** A [transport.Connection] handle; the interface value is an
    [option Connection], [None] for [nil]. *)
Definition Connection := nat.

(** [transport.Transport], a non-nil transport: what [Connect(url)] returns.
    The answer may depend on how many connection attempts were made before,
    which the world counts. *)
Definition Transport := nat → string → option Connection * error.

(** User callbacks, [func(err error)] and [func(event string, err error)],
    are opaque: they are named, and their calls are recorded. *)
Definition ErrHandler := nat.
Definition SubErrHandler := nat.

(** Modelled from the spec: the handler registry ([methods], with its
    [initMethods] and [On]) is not in client.go. The spec gives it
    [registerHandler(event, handler) -> error], which fails for instance on a
    malformed handler signature. An event handler [f interface{}] is a name
    together with the error, if any, that the registry reports for its
    signature. *)
Record Handler := mkHandler {
  handler_name : nat;
  signature_error : error
}.

Record ReconnectionPolicy := mkPolicy {
  Enable : bool;
  ReconnectionTimeout : Duration;
  OnReconnectionError : option ErrHandler
}.

Definition set_Enable (b : bool) (p : ReconnectionPolicy) : ReconnectionPolicy :=
  mkPolicy b (ReconnectionTimeout p) (OnReconnectionError p).
Definition set_ReconnectionTimeout (d : Duration) (p : ReconnectionPolicy) :
    ReconnectionPolicy :=
  mkPolicy (Enable p) d (OnReconnectionError p).
Definition set_OnReconnectionError (h : option ErrHandler) (p : ReconnectionPolicy) :
    ReconnectionPolicy :=
  mkPolicy (Enable p) (ReconnectionTimeout p) h.

(** [chan bool], unbuffered. The channel made by [runReconnectionTask] is
    only ever reached through the field [c.reconnectChannel], so its state is
    kept in the field. *)
Inductive chan := ChanNil | ChanOpen | ChanClosed.

(** The one function ever stored in [onDisconnection]: the closure of
    [runReconnectionTask], which captures [c]. *)
Inductive closure := signalReconnect (c : loc).

(** [Client], with the fields of the embedded [methods] and [Channel] that
    client.go touches. Modelled from the spec: [alive] is the aliveness flag
    of the Channel, set by [SetAlive], [initChannel] and [closeChannel]. *)
Record Client := mkClient {
  messageHandlers : gmap string Handler;
  onDisconnection : option closure;
  conn : option Connection;
  alive : bool;
  tr : Transport;
  rp : ReconnectionPolicy;
  reconnectChannel : chan;
  url : string;
  open : bool
}.

Record clientBuilder := mkBuilder { client : loc }.

Definition set_messageHandlers (m : gmap string Handler) (c : Client) : Client :=
  mkClient m (onDisconnection c) (conn c) (alive c) (tr c) (rp c)
    (reconnectChannel c) (url c) (open c).
Definition set_onDisconnection (f : option closure) (c : Client) : Client :=
  mkClient (messageHandlers c) f (conn c) (alive c) (tr c) (rp c)
    (reconnectChannel c) (url c) (open c).
Definition set_conn (cn : option Connection) (c : Client) : Client :=
  mkClient (messageHandlers c) (onDisconnection c) cn (alive c) (tr c) (rp c)
    (reconnectChannel c) (url c) (open c).
Definition set_alive (b : bool) (c : Client) : Client :=
  mkClient (messageHandlers c) (onDisconnection c) (conn c) b (tr c) (rp c)
    (reconnectChannel c) (url c) (open c).
Definition set_tr (t : Transport) (c : Client) : Client :=
  mkClient (messageHandlers c) (onDisconnection c) (conn c) (alive c) t (rp c)
    (reconnectChannel c) (url c) (open c).
Definition set_rp (p : ReconnectionPolicy) (c : Client) : Client :=
  mkClient (messageHandlers c) (onDisconnection c) (conn c) (alive c) (tr c) p
    (reconnectChannel c) (url c) (open c).
Definition set_reconnectChannel (ch : chan) (c : Client) : Client :=
  mkClient (messageHandlers c) (onDisconnection c) (conn c) (alive c) (tr c)
    (rp c) ch (url c) (open c).
Definition set_url (u : string) (c : Client) : Client :=
  mkClient (messageHandlers c) (onDisconnection c) (conn c) (alive c) (tr c)
    (rp c) (reconnectChannel c) u (open c).
Definition set_open (b : bool) (c : Client) : Client :=
  mkClient (messageHandlers c) (onDisconnection c) (conn c) (alive c) (tr c)
    (rp c) (reconnectChannel c) (url c) b.

(** ** Goroutines, events and the world *)

(** The three pumps that [Dial] starts. They belong to the Channel and take no
    step of their own here. *)
Inductive pump := inLoop | outLoop | pinger.

(** Where the goroutine of [runReconnectionTask] stands: at the receive of
    line 147, or at the head of the retry loop of line 151. *)
Inductive sup_pc := SupRecv | SupRetry.

(** Where a run of the disconnect callback stands: at the test of line 141,
    or at the send of line 142. *)
Inductive cb_pc := CbCheck | CbSend.

Inductive goroutine :=
| GoPump (p : pump) (c : loc)
| GoSupervisor (c : loc) (pc : sup_pc)
| GoDisconnect (c : loc) (pc : cb_pc)
| GoDone.

Inductive event :=
| EvConnect (u : string)
| EvSleep (d : Duration)
| EvOnReconnectionError (h : ErrHandler) (err : error)
| EvOnSubError (h : SubErrHandler) (name : string) (err : error).

Record World := mkWorld {
  heap : gmap loc Client;
  goroutines : list goroutine;
  connects : nat;
  trace : list event
}.

(** ** Effects: state, and Go panics *)

Inductive result (A : Type) :=
| Ok (a : A) (w : World)
| Panic (msg : string) (w : World).
Arguments Ok {A} a w.
Arguments Panic {A} msg w.

Definition M (A : Type) : Type := World → result A.

Definition ret {A} (a : A) : M A := λ w, Ok a w.

Definition bind {A B} (m : M A) (k : A → M B) : M B :=
  λ w, match m w with
       | Ok a w' => k a w'
       | Panic msg w' => Panic msg w'
       end.

(** stdpp's monad notations: [x ← m; k] and [m;; k]. *)
#[global] Instance M_ret : MRet M := @ret.
#[global] Instance M_bind : MBind M := λ A B k m, bind m k.

Definition panic {A} (msg : string) : M A := λ w, Panic msg w.

(** Reading through a pointer; a dangling or nil pointer panics. *)
Definition load (c : loc) : M Client :=
  λ w, match heap w !! c with
       | Some cl => Ok cl w
       | None => Panic "invalid memory address or nil pointer dereference" w
       end.

(** Assigning to fields of [*c]. *)
Definition modify (c : loc) (f : Client → Client) : M unit :=
  λ w, match heap w !! c with
       | Some cl =>
           Ok tt (mkWorld (<[c := f cl]> (heap w)) (goroutines w) (connects w)
                    (trace w))
       | None => Panic "invalid memory address or nil pointer dereference" w
       end.

Definition alloc (cl : Client) : M loc :=
  λ w, let c := fresh (dom (heap w)) in
       Ok c (mkWorld (<[c := cl]> (heap w)) (goroutines w) (connects w) (trace w)).

Definition emit (e : event) : M unit :=
  λ w, Ok tt (mkWorld (heap w) (goroutines w) (connects w) (trace w ++ [e])).

(** The [go] statement. *)
Definition go (g : goroutine) : M unit :=
  λ w, Ok tt (mkWorld (heap w) (goroutines w ++ [g]) (connects w) (trace w)).

(** [t.Connect(u)]. *)
Definition Connect (t : Transport) (u : string) : M (option Connection * error) :=
  λ w, Ok (t (connects w) u)
          (mkWorld (heap w) (goroutines w) (S (connects w)) (trace w ++ [EvConnect u])).

(** [time.Sleep(d)]. *)
Definition Sleep (d : Duration) : M unit := emit (EvSleep d).

(** ** client.go *)

Definition defaultReconnectionTimeout : Duration := 3 * Second.

(** Modelled from the spec: [Channel.SetAlive] is not in client.go; the spec
    has it mark the Channel alive or dead. *)
Definition SetAlive (c : loc) (b : bool) : M unit := modify c (set_alive b).

(** Modelled from the spec: [initChannel] is not in client.go; the spec has it
    initialize the Channel, which is not alive before the first [Dial]. *)
Definition initChannel (c : loc) : M unit := modify c (set_alive false).

(** Modelled from the spec: [closeChannel] is not in client.go; the spec has
    it tear down the pumps and mark the Channel not alive. *)
Definition closeChannel (c : loc) : M unit := modify c (set_alive false).

(** Modelled from the spec: [methods.On] is not in client.go; registration
    fails with the error of a malformed handler and stores the handler
    otherwise. *)
Definition methods_On (c : loc) (name : string) (f : Handler) : M error :=
  match signature_error f with
  | Some e => mret (Some e)
  | None =>
      cl ← load c;
      modify c (set_messageHandlers (<[name := f]> (messageHandlers cl)));;
      mret None
  end.

(** [close(c.reconnectChannel)]: closing a nil or a closed channel panics. *)
Definition close_reconnectChannel (c : loc) : M unit :=
  cl ← load c;
  match reconnectChannel cl with
  | ChanNil => panic "close of nil channel"
  | ChanClosed => panic "close of closed channel"
  | ChanOpen => modify c (set_reconnectChannel ChanClosed)
  end.

(** [Client.Dial], lines 103-122. The body runs under [c.lock]. *)
Definition Dial (c : loc) : M error :=
  cl ← load c;
  r ← Connect (tr cl) (url cl);
  modify c (set_conn r.1);;
  match r.2 with
  | Some e => mret (Some e)
  | None =>
      SetAlive c true;;
      go (GoPump inLoop c);;
      go (GoPump outLoop c);;
      go (GoPump pinger c);;
      modify c (set_open true);;
      mret None
  end.

(** [Client.Close], lines 127-136. The body runs under [c.lock]. *)
Definition Close (c : loc) : M unit :=
  cl ← load c;
  if open cl then
    modify c (set_open false);;
    close_reconnectChannel c;;
    closeChannel c
  else mret tt.

(** [Client.runReconnectionTask], lines 138-168: a fresh channel, the
    disconnect callback, and the goroutine, which starts at its receive. *)
Definition runReconnectionTask (c : loc) : M unit :=
  modify c (set_reconnectChannel ChanOpen);;
  modify c (set_onDisconnection (Some (signalReconnect c)));;
  go (GoSupervisor c SupRecv).

(** One turn of the retry loop, lines 152-164; the result is [connected]. *)
Definition retry_once (c : loc) : M bool :=
  cl ← load c;
  let timeout := ReconnectionTimeout (rp cl) in
  let timeout := if timeout <=? 0 then defaultReconnectionTimeout else timeout in
  Sleep timeout;;
  err ← Dial c;
  match err with
  | Some e =>
      cl' ← load c;
      match OnReconnectionError (rp cl') with
      | Some h => emit (EvOnReconnectionError h err)
      | None => mret tt
      end;;
      mret false
  | None => mret true
  end.

(** ** The builder *)

Module Builder.

Definition Transport (cb : clientBuilder) (t : Transport) : M clientBuilder :=
  modify (client cb) (set_tr t);;
  mret cb.

Definition EnableReconnection (cb : clientBuilder) : M clientBuilder :=
  modify (client cb) (λ cl, set_rp (set_Enable true (rp cl)) cl);;
  mret cb.

Definition ReconnectionTimeout (cb : clientBuilder) (timeout : Duration) :
    M clientBuilder :=
  modify (client cb) (λ cl, set_rp (set_ReconnectionTimeout timeout (rp cl)) cl);;
  mret cb.

Definition OnReconnectionError (cb : clientBuilder) (handler : option ErrHandler) :
    M clientBuilder :=
  modify (client cb) (λ cl, set_rp (set_OnReconnectionError handler (rp cl)) cl);;
  mret cb.

(** Lines 64-69. *)
Definition On (cb : clientBuilder) (name : string) (f : Handler)
    (onSubError : option SubErrHandler) : M clientBuilder :=
  err ← methods_On (client cb) name f;
  match err, onSubError with
  | Some _, Some h => emit (EvOnSubError h name err)
  | _, _ => mret tt
  end;;
  mret cb.

Definition UnsafeClient (cb : clientBuilder) : M loc := mret (client cb).

(** Lines 75-82. *)
Definition BuildToConnect (cb : clientBuilder) (targetUrl : string) : M loc :=
  initChannel (client cb);;
  cl ← load (client cb);
  (if Enable (rp cl) then runReconnectionTask (client cb) else mret tt);;
  modify (client cb) (set_url targetUrl);;
  mret (client cb).

End Builder.

(** [NewClientBuilder], lines 84-93. The default websocket transport of the
    [transport] package is an argument. Modelled from the spec:
    [initMethods] leaves an empty handler registry. *)
Definition NewClientBuilder (defaultWebsocketTransport : Transport) :
    M clientBuilder :=
  c ← alloc (mkClient ∅ None None false defaultWebsocketTransport
               (mkPolicy false 0 None) ChanNil "" false);
  mret (mkBuilder c).

(** ** Goroutines and their interleaving *)

#[global] Instance pump_eq_dec : EqDecision pump.
Proof. solve_decision. Defined.
#[global] Instance sup_pc_eq_dec : EqDecision sup_pc.
Proof. solve_decision. Defined.
#[global] Instance cb_pc_eq_dec : EqDecision cb_pc.
Proof. solve_decision. Defined.
#[global] Instance goroutine_eq_dec : EqDecision goroutine.
Proof. solve_decision. Defined.

Definition get_goroutines : M (list goroutine) := λ w, Ok (goroutines w) w.

Definition set_goroutine (i : nat) (g : goroutine) : M unit :=
  λ w, Ok tt (mkWorld (heap w) (<[i := g]> (goroutines w)) (connects w) (trace w)).

(** The first goroutine that stands at [g], if any. *)
Definition find_goroutine (g : goroutine) (gs : list goroutine) : option nat :=
  fst <$> list_find (λ g', g' = g) gs.

(** One step of goroutine [i], which stands at [g]. A goroutine that cannot
    move (blocked on the channel, returned, or a pump) leaves the world as it
    is. On the unbuffered channel a send and a receive happen together. *)
Definition step_goroutine (i : nat) (g : goroutine) : M unit :=
  match g with
  | GoPump _ _ => mret tt
  | GoDone => mret tt
  | GoDisconnect c CbCheck =>
      (* line 141: if c.open *)
      cl ← load c;
      set_goroutine i (if open cl then GoDisconnect c CbSend else GoDone)
  | GoDisconnect c CbSend =>
      (* line 142: c.reconnectChannel <- true *)
      cl ← load c;
      match reconnectChannel cl with
      | ChanNil => mret tt
      | ChanClosed => panic "send on closed channel"
      | ChanOpen =>
          gs ← get_goroutines;
          match find_goroutine (GoSupervisor c SupRecv) gs with
          | Some j =>
              set_goroutine j (GoSupervisor c SupRetry);;
              set_goroutine i GoDone
          | None => mret tt
          end
      end
  | GoSupervisor c SupRecv =>
      (* line 147: _, open := <-c.reconnectChannel; !open returns *)
      cl ← load c;
      match reconnectChannel cl with
      | ChanNil => mret tt
      | ChanClosed => set_goroutine i GoDone
      | ChanOpen =>
          gs ← get_goroutines;
          match find_goroutine (GoDisconnect c CbSend) gs with
          | Some j =>
              set_goroutine j GoDone;;
              set_goroutine i (GoSupervisor c SupRetry)
          | None => mret tt
          end
      end
  | GoSupervisor c SupRetry =>
      (* lines 151-165: for !connected *)
      connected ← retry_once c;
      set_goroutine i (GoSupervisor c (if (connected : bool) then SupRecv else SupRetry))
  end.

(** Modelled from the spec: the Channel is not in client.go; on an unexpected
    disconnect it invokes the disconnect callback, when one is installed. The
    run of the callback is a goroutine entry of its own, standing at the test
    of line 141. *)
Definition report_disconnect (c : loc) : M unit :=
  cl ← load c;
  match onDisconnection cl with
  | Some (signalReconnect c') => go (GoDisconnect c' CbCheck)
  | None => mret tt
  end.

(** What can happen next: the scheduler runs a goroutine for a step, the
    application calls [Dial] or [Close], or the Channel reports a disconnect. *)
Inductive action :=
| Run (i : nat)
| CallDial (c : loc)
| CallClose (c : loc)
| Disconnected (c : loc).

Definition step (a : action) : M unit :=
  match a with
  | Run i =>
      gs ← get_goroutines;
      match gs !! i with
      | Some g => step_goroutine i g
      | None => mret tt
      end
  | CallDial c => Dial c;; mret tt
  | CallClose c => Close c
  | Disconnected c => report_disconnect c
  end.

Fixpoint run (sched : list action) : M unit :=
  match sched with
  | [] => mret tt
  | a :: rest => step a;; run rest
  end.

(** The world a computation ends in, panic or not. *)
Definition final {A} (r : result A) : World :=
  match r with
  | Ok _ w => w
  | Panic _ w => w
  end.

(** ** Building a client *)

(** The calls of a chain. [CallTransport] passes a transport that is not
    nil, as every [Transport] is. *)
Inductive builder_call :=
| CallTransport (t : Transport)
| CallEnableReconnection
| CallReconnectionTimeout (timeout : Duration)
| CallOnReconnectionError (handler : option ErrHandler)
| CallOn (name : string) (f : Handler) (onSubError : option SubErrHandler).

Definition apply_call (cb : clientBuilder) (call : builder_call) : M clientBuilder :=
  match call with
  | CallTransport t => Builder.Transport cb t
  | CallEnableReconnection => Builder.EnableReconnection cb
  | CallReconnectionTimeout timeout => Builder.ReconnectionTimeout cb timeout
  | CallOnReconnectionError handler => Builder.OnReconnectionError cb handler
  | CallOn name f onSubError => Builder.On cb name f onSubError
  end.

(** A chain [cb.m1(...).m2(...)...]. *)
Fixpoint chain (cb : clientBuilder) (calls : list builder_call) : M clientBuilder :=
  match calls with
  | [] => mret cb
  | call :: rest => cb' ← apply_call cb call; chain cb' rest
  end.

(** [NewClientBuilder().m1(...)...BuildToConnect(targetUrl)]. *)
Definition build (defaultWebsocketTransport : Transport) (calls : list builder_call)
    (targetUrl : string) : M loc :=
  cb ← NewClientBuilder defaultWebsocketTransport;
  cb' ← chain cb calls;
  Builder.BuildToConnect cb' targetUrl.

Definition empty_world : World := mkWorld ∅ [] 0 [].

(** ** Reading traces *)

Definition sleeps (t : list event) : list Duration :=
  omap (λ e, match e with EvSleep d => Some d | _ => None end) t.

Definition reconnection_errors (t : list event) : list error :=
  omap (λ e, match e with EvOnReconnectionError _ err => Some err | _ => None end) t.

(** What the specification expects after a failed attempt: a call of
    [onError] with the error, when the callback is set. *)
Definition failure_events (p : ReconnectionPolicy) (e : string) : list event :=
  match OnReconnectionError p with
  | Some h => [EvOnReconnectionError h (Some e)]
  | None => []
  end.

(** What the specification expects of a reconnection cycle whose attempts fail
    with [errs], in this order, before one succeeds. *)
Fixpoint cycle_events (d : Duration) (u : string) (p : ReconnectionPolicy)
    (errs : list string) : list event :=
  match errs with
  | [] => [EvSleep d; EvConnect u]
  | e :: rest => [EvSleep d; EvConnect u] ++ failure_events p e ++ cycle_events d u p rest
  end.

(** The delay the specification expects between attempts. *)
Definition expected_delay (retryDelay : Duration) : Duration :=
  if 0 <? retryDelay then retryDelay else 3000000000.

(** ** Sample inputs *)

Module Samples.

(** A transport that always connects. *)
Definition accepting : Transport := λ n _, (Some n, None).

(** A transport that refuses the first [k] attempts. *)
Definition refusing (k : nat) : Transport :=
  λ n _, if (n <? k)%nat then (None, Some "refused") else (Some n, None).

Definition params : gomap := Some {[ "token" := "abc"; "room" := "7" ]}.

Definition order : list (string * string) := [("token", "abc"); ("room", "7")].

(** A client that dialed once and lost its connection. *)
Definition lost (t : Transport) (p : ReconnectionPolicy) : Client :=
  mkClient ∅ (Some (signalReconnect 1%positive)) (Some 7%nat) false t p ChanOpen
    "ws://h:1/" true.

(** The world of that client, whose reconnection task is about to redial. *)
Definition redialing (t : Transport) (p : ReconnectionPolicy) : World :=
  mkWorld {[ 1%positive := lost t p ]} [GoSupervisor 1%positive SupRetry] 1
    [EvConnect "ws://h:1/"].

(** A client that was built without reconnection and has not dialed yet: no
    connection, not alive, not open. *)
Definition unconnected (t : Transport) : Client :=
  mkClient ∅ None None false t (mkPolicy false 0 None) ChanNil "ws://h:1/" false.

Definition built (t : Transport) : World :=
  mkWorld {[ 1%positive := unconnected t ]} [] 0 [].

(** A client built with reconnection, dialed and then closed. *)
Definition closed_client : Client :=
  mkClient ∅ (Some (signalReconnect 1%positive)) (Some 0%nat) false accepting
    (mkPolicy true 0 None) ChanClosed "ws://h:1/" false.

Definition closed : World :=
  final ((c ← build accepting [CallEnableReconnection] "ws://h:1/";
          Dial c;; Close c) empty_world).

(** A transport that refuses the second and the third attempt. *)
Definition flaky : Transport :=
  λ n _, if bool_decide (n = 1 ∨ n = 2)%nat
         then (None, Some "refused") else (Some n, None).

(** The scenario of the specification: reconnection enabled with a delay of
    10 ms; the client dials, the Channel reports a disconnect, the callback
    signals the reconnection task, which redials until it connects. *)
Definition scenario : M unit :=
  c ← build flaky [CallEnableReconnection; CallReconnectionTimeout 10000000;
                   CallOnReconnectionError (Some 2%nat)] "ws://h:1/";
  Dial c;;
  run [Disconnected c; Run 4; Run 4; Run 0; Run 0; Run 0].

End Samples.

(** ** Auxiliary notions *)

(** Equality of map entries is decidable. *)
Definition pair_eq_dec (x y : string * string) : {x = y} + {x ≠ y} := decide (x = y).

(** The fields that only the builder writes. *)
Definition same_config (cl cl' : Client) : Prop :=
  onDisconnection cl' = onDisconnection cl ∧ rp cl' = rp cl.

Definition keeps_done (gs gs' : list goroutine) : Prop :=
  ∀ i, gs !! i = Some GoDone → gs' !! i = Some GoDone.

(** From [w] to [w'] every client is still there with the configuration it
    had, and every goroutine that had returned is still returned. *)
Definition frame (w w' : World) : Prop :=
  (∀ c cl, heap w !! c = Some cl → ∃ cl', heap w' !! c = Some cl' ∧ same_config cl cl')
  ∧ keeps_done (goroutines w) (goroutines w').

(** Every client of [w] is still in [w'], related to what it was by [R]. *)
Definition heap_rel (R : Client → Client → Prop) (w w' : World) : Prop :=
  ∀ c cl, heap w !! c = Some cl → ∃ cl', heap w' !! c = Some cl' ∧ R cl cl'.

(** A channel stays as it is, or goes from open to closed. *)
Definition chan_after (ch ch' : chan) : Prop :=
  ch' = ch ∨ (ch = ChanOpen ∧ ch' = ChanClosed).

(** The fields of a client that the builder sets. *)
Definition config_kept (cl cl' : Client) : Prop :=
  tr cl' = tr cl ∧ url cl' = url cl ∧ rp cl' = rp cl
  ∧ messageHandlers cl' = messageHandlers cl
  ∧ onDisconnection cl' = onDisconnection cl.




(** What one call of the chain does to the client of the builder. *)
Definition configure (call : builder_call) (cl : Client) : Client :=
  match call with
  | CallTransport t => set_tr t cl
  | CallEnableReconnection => set_rp (set_Enable true (rp cl)) cl
  | CallReconnectionTimeout timeout =>
      set_rp (set_ReconnectionTimeout timeout (rp cl)) cl
  | CallOnReconnectionError handler =>
      set_rp (set_OnReconnectionError handler (rp cl)) cl
  | CallOn name f _ =>
      match signature_error f with
      | Some _ => cl
      | None => set_messageHandlers (<[name := f]> (messageHandlers cl)) cl
      end
  end.

(** The arguments of the calls of a chain, by method, in the order of the
    calls. *)
Definition transports (calls : list builder_call) : list Transport :=
  omap (λ call, match call with CallTransport t => Some t | _ => None end) calls.

Definition timeouts (calls : list builder_call) : list Duration :=
  omap (λ call, match call with CallReconnectionTimeout d => Some d | _ => None end)
    calls.

Definition error_handlers (calls : list builder_call) : list (option ErrHandler) :=
  omap (λ call, match call with CallOnReconnectionError h => Some h | _ => None end)
    calls.

(** The length of the query part, entry by entry. *)
Definition entry_length (kv : string * string) : nat :=
  (2 + String.length kv.1 + String.length kv.2)%nat.

(** Tactics that run monadic code. *)

Ltac unfold_m :=
  unfold mbind, mret, M_bind, M_ret, bind, ret, load, modify, emit, go, Connect,
    Sleep, panic, set_goroutine, get_goroutines.

(** Runs straight-line code, reading the heap through the given equation. *)
Ltac exec_with H :=
  repeat (unfold_m; cbn; rewrite ?H, ?lookup_insert_eq).

(** * Properties *)

(** ** Checks on small inputs *)

Example GetUrl_no_params :
  Url.GetUrl_sorted "localhost" 80 false None
    = "ws://localhost:80/socket.io/?EIO=3&transport=websocket".
Proof. reflexivity. Qed.

Example GetUrl_two_params :
  Url.GetUrl_sorted "example.org" 443 true (Some {[ "b" := "1"; "a" := "2" ]})
    = "wss://example.org:443/socket.io/?EIO=3&transport=websocket&a=2&b=1".
Proof. vm_compute. reflexivity. Qed.

Example scenario_trace :
  trace (final (Samples.scenario empty_world))
    = [EvConnect "ws://h:1/";
       EvSleep 10000000; EvConnect "ws://h:1/";
       EvOnReconnectionError 2%nat (Some "refused");
       EvSleep 10000000; EvConnect "ws://h:1/";
       EvOnReconnectionError 2%nat (Some "refused");
       EvSleep 10000000; EvConnect "ws://h:1/"].
Proof. vm_compute. reflexivity. Qed.

Example scenario_reconnected :
  (open <$> heap (final (Samples.scenario empty_world)) !! 1%positive) = Some true
  ∧ goroutines (final (Samples.scenario empty_world)) !! 0%nat
    = Some (GoSupervisor 1%positive SupRecv).
Proof. split; vm_compute; reflexivity. Qed.

Example Close_after_Close :
  ∃ w, (c ← build Samples.accepting [CallEnableReconnection] "ws://h:1/";
        Dial c;; Close c;; Close c) empty_world = Ok tt w
       ∧ w = Samples.closed.
Proof. eexists. split; vm_compute; reflexivity. Qed.

(** ** The URL helper *)

Lemma append_cons ch (a b : string) : String ch a +:+ b = String ch (a +:+ b).
Proof. reflexivity. Qed.

Lemma append_assoc (a b c : string) : (a +:+ b) +:+ c = a +:+ b +:+ c.
Proof.
  induction a as [|ch a IH]; [reflexivity|].
  now rewrite !append_cons, IH.
Qed.

Lemma append_nil_r (a : string) : a +:+ "" = a.
Proof.
  induction a as [|ch a IH]; [reflexivity|].
  now rewrite append_cons, IH.
Qed.

Lemma fold_range_body order s :
  fold_left Url.range_body order s = s +:+ Url.query_suffix order.
Proof.
  revert s. induction order as [|[k v] rest IH]; intros s;
    cbn [fold_left Url.query_suffix].
  - now rewrite append_nil_r.
  - rewrite IH. unfold Url.range_body. cbn [fst snd].
    now rewrite !append_assoc.
Qed.

Lemma range_order_empty params order :
  range_order params order → len params = 0 → order = [].
Proof.
  unfold range_order. destruct params as [m|]; simpl; intros Hp Hl.
  - assert (m = ∅) as -> by (apply map_size_empty_inv; lia).
    rewrite map_to_list_empty in Hp. now apply Permutation_nil_r.
  - now apply Permutation_nil_r.
Qed.

Lemma range_order_elem params order k v :
  range_order params order → (k, v) ∈ order ↔ index params k = Some v.
Proof.
  unfold range_order. intros Hp. rewrite Hp.
  destruct params as [m|]; simpl.
  - apply elem_of_map_to_list.
  - split; [intros H; inversion H | discriminate].
Qed.

Lemma range_order_NoDup params order : range_order params order → NoDup order.
Proof.
  unfold range_order. intros Hp. rewrite Hp.
  destruct params as [m|]; simpl; [apply NoDup_map_to_list | constructor].
Qed.

(** C3. For every host, port, secure flag and parameter map, and whatever
    order the run time iterates the map in, [GetUrl] returns ["ws://"] or
    ["wss://"] according to the flag, then the host, [":"], the decimal
    port and ["/socket.io/?EIO=3&transport=websocket"], then one
    ["&key=value"] per iterated entry and nothing more; the iterated entries
    are exactly the entries of the map, each of them once; for an empty or
    nil map nothing is appended. *)
Theorem GetUrl_format host port secure params order :
  range_order params order →
  Url.GetUrl host port secure params order
    = (if secure then "wss://" else "ws://") +:+ host +:+ ":" +:+ Itoa port
        +:+ "/socket.io/?EIO=3&transport=websocket" +:+ Url.query_suffix order
  ∧ (∀ k v, index params k = Some v → count_occ pair_eq_dec order (k, v) = 1%nat)
  ∧ (∀ k v, (k, v) ∈ order → index params k = Some v)
  ∧ (len params = 0 →
     Url.GetUrl host port secure params order
       = (if secure then "wss://" else "ws://") +:+ host +:+ ":" +:+ Itoa port
           +:+ "/socket.io/?EIO=3&transport=websocket").
Proof.
  intros Hp.
  assert (Url.GetUrl host port secure params order
    = (if secure then "wss://" else "ws://") +:+ host +:+ ":" +:+ Itoa port
        +:+ "/socket.io/?EIO=3&transport=websocket" +:+ Url.query_suffix order) as Hfmt.
  { unfold Url.GetUrl. destruct (0 <? len params) eqn:Hlen.
    - rewrite fold_range_body.
      unfold Url.webSocketSecureProtocol, Url.webSocketProtocol, Url.socketioUrl.
      destruct secure; now rewrite !append_assoc.
    - assert (len params = 0) as Hz.
      { apply Z.ltb_ge in Hlen. destruct params; simpl in *; lia. }
      rewrite (range_order_empty _ _ Hp Hz). cbn [Url.query_suffix].
      unfold Url.webSocketSecureProtocol, Url.webSocketProtocol, Url.socketioUrl.
      destruct secure; now rewrite !append_assoc, !append_nil_r. }
  split; [exact Hfmt|]. split; [|split].
  - intros k v Hkv.
    apply (proj1 (NoDup_count_occ' pair_eq_dec order)).
    + apply NoDup_ListNoDup. eapply range_order_NoDup, Hp.
    + apply list_elem_of_In. now apply (range_order_elem _ _ _ _ Hp).
  - intros k v Hin. now apply (range_order_elem _ _ _ _ Hp).
  - intros Hz. rewrite Hfmt, (range_order_empty _ _ Hp Hz).
    cbn [Url.query_suffix]. now rewrite !append_nil_r.
Qed.

Lemma GetUrl_format_witness :
  range_order Samples.params Samples.order
  ∧ Url.GetUrl "example.org" 8080 true Samples.params Samples.order
    = "wss://example.org:8080/socket.io/?EIO=3&transport=websocket&token=abc&room=7".
Proof.
  assert (range_order Samples.params Samples.order) as Hp.
  { unfold range_order. vm_compute. apply perm_swap. }
  split; [exact Hp|].
  destruct (GetUrl_format "example.org" 8080 true _ _ Hp) as [-> _].
  reflexivity.
Defined.

(** ** Running the monad *)

Lemma bind_Ok {A B} (m : M A) (k : A → M B) w a w' :
  m w = Ok a w' → (m ≫= k) w = k a w'.
Proof. intros H. unfold mbind, M_bind, bind. now rewrite H. Qed.

Lemma bind_Panic {A B} (m : M A) (k : A → M B) w msg w' :
  m w = Panic msg w' → (m ≫= k) w = Panic msg w'.
Proof. intros H. unfold mbind, M_bind, bind. now rewrite H. Qed.

(** ** Dial *)

(** What [Dial] does, by the answer of the transport. *)
Lemma Dial_eq w c cl :
  heap w !! c = Some cl →
  Dial c w
    = let r := tr cl (connects w) (url cl) in
      match r.2 with
      | Some e =>
          Ok (Some e)
            (mkWorld (<[c := set_conn r.1 cl]> (heap w)) (goroutines w)
               (S (connects w)) (trace w ++ [EvConnect (url cl)]))
      | None =>
          Ok None
            (mkWorld
               (<[c := set_open true (set_alive true (set_conn r.1 cl))]> (heap w))
               (goroutines w ++ [GoPump inLoop c; GoPump outLoop c; GoPump pinger c])
               (S (connects w)) (trace w ++ [EvConnect (url cl)]))
      end.
Proof.
  intros Hc. unfold Dial, SetAlive. exec_with Hc.
  destruct (tr cl (connects w) (url cl)) as [cn [e|]]; exec_with Hc.
  - reflexivity.
  - now rewrite !insert_insert_eq, <- !app_assoc.
Qed.

Lemma Dial_nil w c : heap w !! c = None → ∃ msg, Dial c w = Panic msg w.
Proof. intros Hc. unfold Dial. exec_with Hc. eauto. Qed.

(** C5. When the connect call succeeds, [Dial] returns nil; it has stored the
    new connection, marked the Channel alive, started the three pumps as
    goroutines of their own (in the order inLoop, outLoop, pinger) and set
    [open]; the transport was called once, with the stored URL. Nothing else
    of the client and no other client has changed. *)
Theorem Dial_success w c cl cn :
  heap w !! c = Some cl →
  tr cl (connects w) (url cl) = (cn, None) →
  ∃ w' cl',
    Dial c w = Ok None w'
    ∧ w' = mkWorld (<[c := set_open true (set_alive true (set_conn cn cl))]> (heap w))
             (goroutines w ++ [GoPump inLoop c; GoPump outLoop c; GoPump pinger c])
             (S (connects w)) (trace w ++ [EvConnect (url cl)])
    ∧ heap w' !! c = Some cl'
    ∧ conn cl' = cn
    ∧ alive cl' = true
    ∧ open cl' = true
    ∧ messageHandlers cl' = messageHandlers cl
    ∧ onDisconnection cl' = onDisconnection cl
    ∧ tr cl' = tr cl ∧ rp cl' = rp cl ∧ url cl' = url cl
    ∧ reconnectChannel cl' = reconnectChannel cl
    ∧ (∀ c', c' ≠ c → heap w' !! c' = heap w !! c')
    ∧ goroutines w'
      = goroutines w ++ [GoPump inLoop c; GoPump outLoop c; GoPump pinger c]
    ∧ connects w' = S (connects w)
    ∧ trace w' = trace w ++ [EvConnect (url cl)].
Proof.
  intros Hc Htr. rewrite (Dial_eq _ _ _ Hc), Htr. cbn [fst snd].
  eexists _, _. split; [reflexivity|]. split; [reflexivity|].
  cbn [heap goroutines connects trace]. rewrite lookup_insert_eq.
  split; [reflexivity|]. do 9 (split; [reflexivity|]).
  split; [|repeat split].
  intros c' Hne. now rewrite lookup_insert_ne.
Qed.

Lemma Dial_success_witness :
  let w := Samples.built Samples.accepting in
  let cl := Samples.unconnected Samples.accepting in
  heap w !! 1%positive = Some cl
  ∧ tr cl (connects w) (url cl) = (Some 0%nat, None)
  ∧ conn cl = None ∧ alive cl = false ∧ open cl = false
  ∧ ∃ w' cl',
      Dial 1%positive w = Ok None w'
      ∧ w' = mkWorld
               (<[1%positive := set_open true (set_alive true (set_conn (Some 0%nat) cl))]>
                  (heap w))
               (goroutines w ++ [GoPump inLoop 1%positive; GoPump outLoop 1%positive;
                                 GoPump pinger 1%positive])
               (S (connects w)) (trace w ++ [EvConnect (url cl)])
      ∧ heap w' !! 1%positive = Some cl'
      ∧ conn cl' = Some 0%nat
      ∧ alive cl' = true
      ∧ open cl' = true
      ∧ messageHandlers cl' = messageHandlers cl
      ∧ onDisconnection cl' = onDisconnection cl
      ∧ tr cl' = tr cl ∧ rp cl' = rp cl ∧ url cl' = url cl
      ∧ reconnectChannel cl' = reconnectChannel cl
      ∧ (∀ c', c' ≠ 1%positive → heap w' !! c' = heap w !! c')
      ∧ goroutines w'
        = goroutines w ++ [GoPump inLoop 1%positive; GoPump outLoop 1%positive;
                           GoPump pinger 1%positive]
      ∧ connects w' = S (connects w)
      ∧ trace w' = trace w ++ [EvConnect (url cl)].
Proof.
  intros w cl. do 5 (split; [reflexivity|]).
  exact (Dial_success w 1%positive cl (Some 0%nat) eq_refl eq_refl).
Defined.

(** C4, as the code has it. When the connect call fails, [Dial] returns that
    error unchanged; the [open] flag, the aliveness of the Channel and every
    other field but one are as before, and no goroutine was started. The
    stored connection is not kept: it now holds the connection value that the
    failed connect call returned. *)
Theorem Dial_failure w c cl cn e :
  heap w !! c = Some cl →
  tr cl (connects w) (url cl) = (cn, Some e) →
  Dial c w
    = Ok (Some e)
        (mkWorld (<[c := set_conn cn cl]> (heap w)) (goroutines w)
           (S (connects w)) (trace w ++ [EvConnect (url cl)])).
Proof. intros Hc Htr. rewrite (Dial_eq _ _ _ Hc), Htr. reflexivity. Qed.

Lemma Dial_failure_witness :
  let p := mkPolicy true 0 None in
  let w := Samples.redialing (Samples.refusing 5) p in
  let cl := Samples.lost (Samples.refusing 5) p in
  heap w !! 1%positive = Some cl
  ∧ tr cl (connects w) (url cl) = (None, Some "refused")
  ∧ ∃ w', Dial 1%positive w = Ok (Some "refused") w'
          ∧ (open <$> heap w' !! 1%positive) = Some (open cl)
          ∧ (alive <$> heap w' !! 1%positive) = Some (alive cl)
          ∧ goroutines w' = goroutines w.
Proof.
  intros p w cl. split; [reflexivity|]. split; [reflexivity|].
  eexists. split.
  - apply (Dial_failure w 1%positive cl None "refused"); reflexivity.
  - repeat split; reflexivity.
Defined.

(** C4, as stated, fails: a client that holds connection 7 and whose
    transport refuses the attempt holds no connection after the failed
    [Dial]. *)
Lemma Dial_failure_overwrites_conn :
  let w := Samples.redialing (Samples.refusing 5) (mkPolicy true 0 None) in
  ∃ w', Dial 1%positive w = Ok (Some "refused") w'
        ∧ (conn <$> heap w !! 1%positive) = Some (Some 7%nat)
        ∧ (conn <$> heap w' !! 1%positive) = Some None
        ∧ (conn <$> heap w' !! 1%positive) ≠ (conn <$> heap w !! 1%positive).
Proof.
  intros w. eexists. split; [reflexivity|].
  split; [reflexivity|]. split; [reflexivity|]. discriminate.
Qed.

(** ** Close *)

(** [Close] on a client that is not open changes nothing. *)
Lemma Close_not_open w c cl :
  heap w !! c = Some cl → open cl = false → Close c w = Ok tt w.
Proof. intros Hc Ho. unfold Close. exec_with Hc. now rewrite Ho. Qed.

(** [Close] on an open client whose reconnect channel is open. *)
Lemma Close_open w c cl :
  heap w !! c = Some cl → open cl = true → reconnectChannel cl = ChanOpen →
  Close c w
    = Ok tt
        (mkWorld
           (<[c := set_alive false (set_reconnectChannel ChanClosed (set_open false cl))]>
              (heap w))
           (goroutines w) (connects w) (trace w)).
Proof.
  intros Hc Ho Hch. unfold Close, close_reconnectChannel, closeChannel.
  exec_with Hc. rewrite Ho. exec_with Hc. rewrite Hch. exec_with Hc.
  now rewrite !insert_insert_eq.
Qed.

(** A second [Close] right after a [Close] that returned changes nothing: it
    neither closes nor signals the channel. *)
Lemma Close_twice w c cl w' :
  heap w !! c = Some cl → Close c w = Ok tt w' → Close c w' = Ok tt w'.
Proof.
  intros Hc. unfold Close, close_reconnectChannel, closeChannel.
  exec_with Hc. destruct (open cl) eqn:Ho; exec_with Hc.
  - destruct (reconnectChannel cl); exec_with Hc; try discriminate.
    intros [= <-]. exec_with Hc. reflexivity.
  - intros [= <-]. rewrite Hc, Ho. reflexivity.
Qed.

(** [Close] on an open client whose reconnect channel is nil, as it is when
    reconnection was not enabled at build time: [close] panics, after [open]
    was cleared. *)
Lemma Close_nil_channel w c cl :
  heap w !! c = Some cl → open cl = true → reconnectChannel cl = ChanNil →
  Close c w
    = Panic "close of nil channel"
        (mkWorld (<[c := set_open false cl]> (heap w)) (goroutines w) (connects w)
           (trace w)).
Proof.
  intros Hc Ho Hch. unfold Close, close_reconnectChannel.
  exec_with Hc. rewrite Ho. exec_with Hc. rewrite Hch. reflexivity.
Qed.

(** C1, the failing run. A client built without reconnection, dialed with
    success and then closed: [Close] panics with "close of nil channel". *)
Theorem Close_panics_without_reconnection :
  ∃ w, (c ← build Samples.accepting [] "ws://h:1/"; Dial c;; Close c) empty_world
       = Panic "close of nil channel" w.
Proof. eexists. vm_compute. reflexivity. Qed.

(** ** The builder *)

(** C10. [On] never fails and returns the builder it was called on. When the
    registration returns an error and a callback was given, the callback is
    called once, with the event name and that error; when the callback is
    nil, or the registration succeeds, nothing is called. The client is still
    there for the next call of the chain. *)
Theorem On_reports_registration_error w cb name f onSubError cl :
  heap w !! client cb = Some cl →
  ∃ w',
    Builder.On cb name f onSubError w = Ok cb w'
    ∧ trace w' = trace w ++ match signature_error f, onSubError with
                            | Some e, Some h => [EvOnSubError h name (Some e)]
                            | _, _ => []
                            end
    ∧ (is_Some (signature_error f) → heap w' = heap w)
    ∧ is_Some (heap w' !! client cb)
    ∧ goroutines w' = goroutines w
    ∧ connects w' = connects w.
Proof.
  intros Hc. unfold Builder.On, methods_On.
  destruct (signature_error f) as [e|]; [destruct onSubError as [h|]|];
    exec_with Hc; eexists; (split; [reflexivity|]); cbn;
    rewrite ?app_nil_r, ?lookup_insert_eq; repeat split; eauto.
  intros [? [=]].
Qed.

Lemma On_reports_registration_error_witness :
  let w := Samples.redialing Samples.accepting (mkPolicy false 0 None) in
  let cb := mkBuilder 1%positive in
  let f := mkHandler 3%nat (Some "f is not a function") in
  heap w !! client cb = Some (Samples.lost Samples.accepting (mkPolicy false 0 None))
  ∧ ∃ w', Builder.On cb "message" f (Some 9%nat) w = Ok cb w'
          ∧ trace w'
            = trace w ++ [EvOnSubError 9%nat "message" (Some "f is not a function")].
Proof.
  intros w cb f. split; [reflexivity|].
  destruct (On_reports_registration_error w cb "message" f (Some 9%nat) _ eq_refl)
    as (w' & H1 & H2 & _).
  exists w'. split; [exact H1 | exact H2].
Defined.

(** ** The retry loop *)

Lemma expected_delay_eq (d : Duration) :
  (if d <=? 0 then defaultReconnectionTimeout else d) = expected_delay d.
Proof.
  unfold expected_delay, defaultReconnectionTimeout, Second.
  destruct (Z.leb_spec d 0), (Z.ltb_spec 0 d); lia.
Qed.

(** One turn of the retry loop, by the answer of the transport. *)
Lemma retry_once_eq w c cl :
  heap w !! c = Some cl →
  retry_once c w
    = let d := expected_delay (ReconnectionTimeout (rp cl)) in
      let r := tr cl (connects w) (url cl) in
      match r.2 with
      | Some e =>
          Ok false
            (mkWorld (<[c := set_conn r.1 cl]> (heap w)) (goroutines w)
               (S (connects w))
               (trace w ++ [EvSleep d; EvConnect (url cl)] ++ failure_events (rp cl) e))
      | None =>
          Ok true
            (mkWorld
               (<[c := set_open true (set_alive true (set_conn r.1 cl))]> (heap w))
               (goroutines w ++ [GoPump inLoop c; GoPump outLoop c; GoPump pinger c])
               (S (connects w)) (trace w ++ [EvSleep d; EvConnect (url cl)]))
      end.
Proof.
  intros Hc. unfold retry_once, Dial, SetAlive, failure_events.
  exec_with Hc. rewrite expected_delay_eq.
  destruct (tr cl (connects w) (url cl)) as [cn [e|]]; exec_with Hc.
  - destruct (OnReconnectionError (rp cl)); exec_with Hc;
      now rewrite <- ?app_assoc.
  - now rewrite !insert_insert_eq, <- !app_assoc.
Qed.

(** C8. In every turn of the retry loop the goroutine sleeps once, before it
    dials, for the configured [ReconnectionTimeout] when that is positive and
    for 3 seconds when it is zero or negative; the policy stored in the
    client is the same after the turn. *)
Theorem retry_once_delay w c cl :
  heap w !! c = Some cl →
  ∃ connected w' cl' rest,
    retry_once c w = Ok connected w'
    ∧ trace w'
      = trace w ++ EvSleep (if 0 <? ReconnectionTimeout (rp cl)
                            then ReconnectionTimeout (rp cl)
                            else 3 * 1000000000)
                   :: EvConnect (url cl) :: rest
    ∧ sleeps rest = []
    ∧ heap w' !! c = Some cl'
    ∧ rp cl' = rp cl.
Proof.
  intros Hc. rewrite (retry_once_eq _ _ _ Hc). cbn zeta.
  destruct (tr cl (connects w) (url cl)) as [cn [e|]]; cbn [fst snd].
  - eexists _, _, _, (failure_events (rp cl) e). split; [reflexivity|].
    cbn [trace heap]. rewrite lookup_insert_eq.
    repeat split; try reflexivity.
    unfold failure_events. now destruct (OnReconnectionError (rp cl)).
  - eexists _, _, _, []. split; [reflexivity|].
    cbn [trace heap]. rewrite lookup_insert_eq.
    repeat split; reflexivity.
Qed.

Lemma retry_once_delay_witness :
  let p := mkPolicy true (-5) (Some 2%nat) in
  let w := Samples.redialing (Samples.refusing 5) p in
  heap w !! 1%positive = Some (Samples.lost (Samples.refusing 5) p)
  ∧ ∃ connected w' cl' rest,
      retry_once 1%positive w = Ok connected w'
      ∧ trace w' = trace w ++ EvSleep 3000000000 :: EvConnect "ws://h:1/" :: rest
      ∧ sleeps rest = []
      ∧ heap w' !! 1%positive = Some cl'
      ∧ rp cl' = p.
Proof.
  intros p w. split; [reflexivity|].
  exact (retry_once_delay w 1%positive (Samples.lost (Samples.refusing 5) p) eq_refl).
Defined.

(** ** A reconnection cycle *)

(** The scheduler runs the goroutine of the reconnection task at the head of
    its retry loop: one turn of the loop. *)
Lemma step_retry w i c :
  goroutines w !! i = Some (GoSupervisor c SupRetry) →
  step (Run i) w
    = (connected ← retry_once c;
       set_goroutine i (GoSupervisor c (if (connected : bool) then SupRecv else SupRetry))) w.
Proof.
  intros Hi. unfold step. unfold mbind at 1. unfold M_bind, bind, get_goroutines.
  now rewrite Hi.
Qed.

Lemma reconnection_errors_app t1 t2 :
  reconnection_errors (t1 ++ t2) = reconnection_errors t1 ++ reconnection_errors t2.
Proof. apply omap_app. Qed.

Lemma reconnection_errors_cycle d u p errs :
  reconnection_errors (cycle_events d u p errs)
    = match OnReconnectionError p with
      | Some _ => Some <$> errs
      | None => []
      end.
Proof.
  induction errs as [|e errs IH]; cbn [cycle_events].
  - now destruct (OnReconnectionError p).
  - rewrite !reconnection_errors_app, IH. unfold failure_events.
    now destruct (OnReconnectionError p).
Qed.

(** C2. The goroutine of the reconnection task stands at the head of its
    retry loop, and the transport fails the next [length errs] attempts, with
    the errors [errs], and accepts the one after. Run for that many turns
    plus one, the goroutine sleeps and dials once per turn, calls
    [OnReconnectionError] after each failed attempt with the error of that
    attempt, never with nil and at no other time, and calls nothing when the
    callback is unset; the last attempt leaves the client open, with the new
    connection, and the goroutine back at its receive. *)
Theorem reconnection_cycle errs : ∀ w i c cl cn,
  heap w !! c = Some cl →
  goroutines w !! i = Some (GoSupervisor c SupRetry) →
  (∀ k e, errs !! k = Some e →
          (tr cl (connects w + k)%nat (url cl)).2 = Some e) →
  tr cl (connects w + length errs)%nat (url cl) = (cn, None) →
  ∃ w' cl',
    run (replicate (S (length errs)) (Run i)) w = Ok tt w'
    ∧ trace w'
      = trace w ++ cycle_events (expected_delay (ReconnectionTimeout (rp cl)))
                     (url cl) (rp cl) errs
    ∧ reconnection_errors (trace w')
      = reconnection_errors (trace w)
        ++ match OnReconnectionError (rp cl) with
           | Some _ => Some <$> errs
           | None => []
           end
    ∧ connects w' = (connects w + S (length errs))%nat
    ∧ heap w' !! c = Some cl'
    ∧ open cl' = true ∧ alive cl' = true ∧ conn cl' = cn
    ∧ goroutines w' !! i = Some (GoSupervisor c SupRecv).
Proof.
  induction errs as [|e errs IH]; intros w i c cl cn Hc Hi Herrs Hlast.
  - cbn [length replicate run].
    rewrite (bind_Ok _ _ w tt
      (mkWorld (<[c := set_open true (set_alive true (set_conn cn cl))]> (heap w))
         (<[i := GoSupervisor c SupRecv]>
            (goroutines w ++ [GoPump inLoop c; GoPump outLoop c; GoPump pinger c]))
         (S (connects w))
         (trace w ++ [EvSleep (expected_delay (ReconnectionTimeout (rp cl)));
                      EvConnect (url cl)]))).
    2:{ rewrite (step_retry _ _ _ Hi).
        unfold mbind, M_bind, bind. rewrite (retry_once_eq _ _ _ Hc). cbn zeta.
        rewrite Nat.add_0_r in Hlast. rewrite Hlast. reflexivity. }
    eexists _, _. split; [reflexivity|]. cbn [trace heap connects goroutines].
    rewrite lookup_insert_eq, reconnection_errors_app.
    split; [reflexivity|]. split.
    { cbn. now destruct (OnReconnectionError (rp cl)). }
    split; [lia|]. split; [reflexivity|]. repeat split.
    apply list_lookup_insert_eq. rewrite length_app.
    apply lookup_lt_Some in Hi. lia.
  - cbn [length replicate run].
    pose proof (Herrs 0%nat e eq_refl) as Hfirst. rewrite Nat.add_0_r in Hfirst.
    destruct (tr cl (connects w) (url cl)) as [cn0 err0] eqn:Htr.
    cbn [snd] in Hfirst. subst err0.
    set (w1 := mkWorld (<[c := set_conn cn0 cl]> (heap w)) (goroutines w)
                 (S (connects w))
                 (trace w ++ [EvSleep (expected_delay (ReconnectionTimeout (rp cl)));
                              EvConnect (url cl)] ++ failure_events (rp cl) e)).
    rewrite (bind_Ok _ _ w tt w1).
    2:{ rewrite (step_retry _ _ _ Hi).
        unfold mbind, M_bind, bind. rewrite (retry_once_eq _ _ _ Hc). cbn zeta.
        rewrite Htr. cbn [snd fst]. unfold set_goroutine. cbn [heap goroutines connects trace].
        now rewrite (list_insert_id _ _ _ Hi). }
    destruct (IH w1 i c (set_conn cn0 cl) cn) as (w' & cl' & Hrun & Htrace & _ & Hn & Hrest).
    + apply lookup_insert_eq.
    + exact Hi.
    + intros k e' Hk. pose proof (Herrs (S k) e' Hk) as H.
      rewrite Nat.add_succ_r in H. exact H.
    + cbn [length] in Hlast. rewrite Nat.add_succ_r in Hlast. exact Hlast.
    + exists w', cl'. split; [exact Hrun|].
      assert (trace w' = trace w ++ cycle_events (expected_delay (ReconnectionTimeout (rp cl)))
                     (url cl) (rp cl) (e :: errs)) as Ht.
      { rewrite Htrace. cbn [trace w1 cycle_events rp url set_conn].
        now rewrite <- !app_assoc. }
      split; [exact Ht|]. split.
      { rewrite Ht, reconnection_errors_app. f_equal.
        apply reconnection_errors_cycle. }
      split; [rewrite Hn; cbn [connects w1]; lia | exact Hrest].
Qed.

Lemma reconnection_cycle_witness :
  let p := mkPolicy true 10000000 (Some 2%nat) in
  let w := Samples.redialing (Samples.refusing 3) p in
  ∃ w' cl',
    run (replicate 3 (Run 0)) w = Ok tt w'
    ∧ trace w'
      = trace w ++ cycle_events 10000000 "ws://h:1/" p ["refused"; "refused"]
    ∧ reconnection_errors (trace w')
      = reconnection_errors (trace w) ++ [Some "refused"; Some "refused"]
    ∧ connects w' = 4%nat
    ∧ heap w' !! 1%positive = Some cl'
    ∧ open cl' = true ∧ alive cl' = true ∧ conn cl' = Some 3%nat
    ∧ goroutines w' !! 0%nat = Some (GoSupervisor 1%positive SupRecv).
Proof.
  intros p w.
  apply (reconnection_cycle ["refused"; "refused"] w 0%nat 1%positive
           (Samples.lost (Samples.refusing 3) p) (Some 3%nat)).
  - reflexivity.
  - reflexivity.
  - intros [|[|k]] e H; vm_compute in H; inversion H; reflexivity.
  - reflexivity.
Defined.

(** ** What no step changes *)

Lemma same_config_refl cl : same_config cl cl.
Proof. now split. Qed.

Lemma keeps_done_refl gs : keeps_done gs gs.
Proof. now intros i. Qed.

Lemma keeps_done_app gs extra : keeps_done gs (gs ++ extra).
Proof. intros i Hi. now apply lookup_app_l_Some. Qed.

Lemma keeps_done_insert gs gs' j g :
  keeps_done gs gs' → gs !! j ≠ Some GoDone → keeps_done gs (<[j := g]> gs').
Proof.
  intros Hk Hj i Hi. rewrite list_lookup_insert_ne; [now apply Hk|].
  intros ->. contradiction.
Qed.

Lemma frame_refl w : frame w w.
Proof.
  split; [|apply keeps_done_refl].
  intros c cl Hc. exists cl. split; [exact Hc | apply same_config_refl].
Qed.

Lemma frame_trans w1 w2 w3 : frame w1 w2 → frame w2 w3 → frame w1 w3.
Proof.
  intros [Hh1 Hg1] [Hh2 Hg2]. split.
  - intros c cl Hc. destruct (Hh1 c cl Hc) as (cl2 & Hc2 & Ho2 & Hr2).
    destruct (Hh2 c cl2 Hc2) as (cl3 & Hc3 & Ho3 & Hr3).
    exists cl3. split; [exact Hc3|]. split; congruence.
  - intros i Hi. apply Hg2, Hg1, Hi.
Qed.

Lemma frame_goroutines w gs n t :
  keeps_done (goroutines w) gs → frame w (mkWorld (heap w) gs n t).
Proof.
  intros Hg. split; [|exact Hg].
  intros c cl Hc. exists cl. split; [exact Hc | apply same_config_refl].
Qed.

Lemma frame_update w c cl cl' gs n t :
  heap w !! c = Some cl → same_config cl cl' →
  keeps_done (goroutines w) gs →
  frame w (mkWorld (<[c := cl']> (heap w)) gs n t).
Proof.
  intros Hc Hs Hg. split; [|exact Hg].
  intros c0 cl0 Hc0. cbn [heap]. destruct (decide (c = c0)) as [->|Hne].
  - rewrite lookup_insert_eq. exists cl'. split; [reflexivity|]. congruence.
  - rewrite lookup_insert_ne by exact Hne.
    exists cl0. split; [exact Hc0 | apply same_config_refl].
Qed.

Lemma retry_once_nil w c : heap w !! c = None → ∃ msg, retry_once c w = Panic msg w.
Proof. intros Hc. unfold retry_once. exec_with Hc. eauto. Qed.

Lemma Dial_frame w c : frame w (final (Dial c w)).
Proof.
  destruct (heap w !! c) as [cl|] eqn:Hc.
  - rewrite (Dial_eq _ _ _ Hc). cbn zeta.
    destruct (tr cl (connects w) (url cl)).2; cbn [final];
      (apply (frame_update _ _ _ _ _ _ _ Hc); [now split|]).
    + apply keeps_done_refl.
    + apply keeps_done_app.
  - destruct (Dial_nil _ _ Hc) as [msg ->]. apply frame_refl.
Qed.

Lemma retry_once_frame w c : frame w (final (retry_once c w)).
Proof.
  destruct (heap w !! c) as [cl|] eqn:Hc.
  - rewrite (retry_once_eq _ _ _ Hc). cbn zeta.
    destruct (tr cl (connects w) (url cl)).2; cbn [final];
      (apply (frame_update _ _ _ _ _ _ _ Hc); [now split|]).
    + apply keeps_done_refl.
    + apply keeps_done_app.
  - destruct (retry_once_nil _ _ Hc) as [msg ->]. apply frame_refl.
Qed.

Lemma Close_frame w c : frame w (final (Close c w)).
Proof.
  unfold Close, close_reconnectChannel, closeChannel.
  destruct (heap w !! c) as [cl|] eqn:Hc; exec_with Hc; [|apply frame_refl].
  destruct (open cl); exec_with Hc; [|apply frame_refl].
  destruct (reconnectChannel cl); exec_with Hc; rewrite ?insert_insert_eq;
    (apply (frame_update _ _ _ _ _ _ _ Hc); [now split | apply keeps_done_refl]).
Qed.

Lemma report_disconnect_frame w c : frame w (final (report_disconnect c w)).
Proof.
  unfold report_disconnect.
  destruct (heap w !! c) as [cl|] eqn:Hc; exec_with Hc; [|apply frame_refl].
  destruct (onDisconnection cl) as [[c']|]; exec_with Hc; [|apply frame_refl].
  apply frame_goroutines, keeps_done_app.
Qed.

Lemma find_goroutine_Some g gs j : find_goroutine g gs = Some j → gs !! j = Some g.
Proof.
  unfold find_goroutine. destruct (list_find _ gs) as [[j' g']|] eqn:Hf; [|discriminate].
  intros [= <-]. apply list_find_Some in Hf as (Hj & -> & _). exact Hj.
Qed.

Lemma step_goroutine_frame w i g :
  goroutines w !! i = Some g → frame w (final (step_goroutine i g w)).
Proof.
  intros Hi.
  assert (g ≠ GoDone → goroutines w !! i ≠ Some GoDone) as Hnd by congruence.
  destruct g as [p c|c [|]|c [|]|]; cbn [step_goroutine]; try apply frame_refl.
  - (* the receive *)
    destruct (heap w !! c) as [cl|] eqn:Hc; exec_with Hc; [|apply frame_refl].
    destruct (reconnectChannel cl); exec_with Hc; try apply frame_refl.
    + destruct (find_goroutine _ (goroutines w)) as [j|] eqn:Hj; exec_with Hc;
        [|apply frame_refl].
      apply find_goroutine_Some in Hj.
      apply frame_goroutines. repeat apply keeps_done_insert;
        [apply keeps_done_refl | congruence | now apply Hnd].
    + apply frame_goroutines, keeps_done_insert;
        [apply keeps_done_refl | now apply Hnd].
  - (* a turn of the retry loop *)
    unfold mbind, M_bind, bind.
    pose proof (retry_once_frame w c) as Hf.
    destruct (retry_once c w) as [connected w1|msg w1]; cbn [final] in *; [|exact Hf].
    destruct Hf as [Hh Hg]. split; [exact Hh|].
    cbn [goroutines]. apply keeps_done_insert; [exact Hg | now apply Hnd].
  - (* the test of the callback *)
    destruct (heap w !! c) as [cl|] eqn:Hc; exec_with Hc; [|apply frame_refl].
    apply frame_goroutines, keeps_done_insert;
      [apply keeps_done_refl | now apply Hnd].
  - (* the send of the callback *)
    destruct (heap w !! c) as [cl|] eqn:Hc; exec_with Hc; [|apply frame_refl].
    destruct (reconnectChannel cl); exec_with Hc; try apply frame_refl.
    destruct (find_goroutine _ (goroutines w)) as [j|] eqn:Hj; exec_with Hc;
      [|apply frame_refl].
    apply find_goroutine_Some in Hj.
    apply frame_goroutines. repeat apply keeps_done_insert;
      [apply keeps_done_refl | congruence | now apply Hnd].
Qed.

Lemma step_frame a w : frame w (final (step a w)).
Proof.
  destruct a as [i|c|c|c]; cbn [step].
  - unfold mbind, M_bind, bind, get_goroutines.
    destruct (goroutines w !! i) as [g|] eqn:Hi.
    + now apply step_goroutine_frame.
    + apply frame_refl.
  - unfold mbind, M_bind, bind. pose proof (Dial_frame w c) as Hf.
    destruct (Dial c w); exact Hf.
  - apply Close_frame.
  - apply report_disconnect_frame.
Qed.

Lemma run_frame sched : ∀ w, frame w (final (run sched w)).
Proof.
  induction sched as [|a sched IH]; intros w; cbn [run].
  - apply frame_refl.
  - unfold mbind, M_bind, bind. pose proof (step_frame a w) as Hf.
    destruct (step a w) as [[] w1|msg w1]; cbn [final] in Hf.
    + exact (frame_trans _ _ _ Hf (IH w1)).
    + exact Hf.
Qed.

(** ** The reconnection task after Close *)

(** C6. The reconnect channel is closed and the goroutine of the reconnection
    task stands at its receive. Its next step returns from the goroutine,
    without sleeping, dialing or calling anything. From then on, whatever
    happens in whatever order, that goroutine stays returned and running it
    changes nothing: no sleep, no [Dial] and no [OnReconnectionError] comes
    from it any more. *)
Theorem supervisor_returns_after_Close w i c cl :
  heap w !! c = Some cl →
  reconnectChannel cl = ChanClosed →
  goroutines w !! i = Some (GoSupervisor c SupRecv) →
  ∃ w1,
    step (Run i) w = Ok tt w1
    ∧ heap w1 = heap w ∧ connects w1 = connects w ∧ trace w1 = trace w
    ∧ goroutines w1 = <[i := GoDone]> (goroutines w)
    ∧ ∀ sched,
        goroutines (final (run sched w1)) !! i = Some GoDone
        ∧ step (Run i) (final (run sched w1)) = Ok tt (final (run sched w1)).
Proof.
  intros Hc Hch Hi. eexists. split.
  { unfold step. unfold mbind at 1. unfold M_bind, bind, get_goroutines.
    rewrite Hi. cbn [step_goroutine]. exec_with Hc. rewrite Hch. reflexivity. }
  cbn [heap connects trace goroutines]. repeat (split; [reflexivity|]).
  intros sched.
  match goal with |- context [run sched ?w0] => set (w1 := w0) end.
  assert (goroutines (final (run sched w1)) !! i = Some GoDone) as Hdone.
  { apply (run_frame sched w1). cbn [w1 goroutines].
    apply list_lookup_insert_eq. now apply lookup_lt_Some in Hi. }
  split; [exact Hdone|].
  unfold step. unfold mbind, M_bind, bind, get_goroutines. now rewrite Hdone.
Qed.

Lemma supervisor_returns_after_Close_witness :
  heap Samples.closed !! 1%positive = Some Samples.closed_client
  ∧ reconnectChannel Samples.closed_client = ChanClosed
  ∧ goroutines Samples.closed !! 0%nat = Some (GoSupervisor 1%positive SupRecv)
  ∧ ∃ w1,
      step (Run 0) Samples.closed = Ok tt w1
      ∧ heap w1 = heap Samples.closed
      ∧ connects w1 = connects Samples.closed
      ∧ trace w1 = trace Samples.closed
      ∧ goroutines w1 = <[0%nat := GoDone]> (goroutines Samples.closed)
      ∧ ∀ sched,
          goroutines (final (run sched w1)) !! 0%nat = Some GoDone
          ∧ step (Run 0) (final (run sched w1)) = Ok tt (final (run sched w1)).
Proof.
  split; [reflexivity|]. split; [reflexivity|]. split; [reflexivity|].
  apply (supervisor_returns_after_Close Samples.closed 0%nat 1%positive
           Samples.closed_client); reflexivity.
Defined.

(** ** A client built without reconnection *)

Lemma apply_call_plain cb call w cl :
  call ≠ CallEnableReconnection →
  heap w !! client cb = Some cl →
  ∃ w' cl',
    apply_call cb call w = Ok cb w'
    ∧ heap w' !! client cb = Some cl'
    ∧ Enable (rp cl') = Enable (rp cl)
    ∧ onDisconnection cl' = onDisconnection cl
    ∧ reconnectChannel cl' = reconnectChannel cl
    ∧ goroutines w' = goroutines w
    ∧ connects w' = connects w.
Proof.
  intros Hcall Hc.
  destruct call as [t| |timeout|handler|name f onSubError]; [|congruence|..];
    cbn [apply_call];
    unfold Builder.Transport, Builder.ReconnectionTimeout,
      Builder.OnReconnectionError, Builder.On, methods_On.
  1-3: exec_with Hc; eexists _, _; (split; [reflexivity|]);
       cbn; rewrite lookup_insert_eq; repeat split; reflexivity.
  destruct (signature_error f) as [e|]; [destruct onSubError as [h|]|];
    exec_with Hc; eexists _, _; (split; [reflexivity|]);
    cbn; rewrite ?lookup_insert_eq; repeat split; try reflexivity; eauto.
Qed.

Lemma chain_plain calls : ∀ cb w cl,
  CallEnableReconnection ∉ calls →
  heap w !! client cb = Some cl →
  ∃ w' cl',
    chain cb calls w = Ok cb w'
    ∧ heap w' !! client cb = Some cl'
    ∧ Enable (rp cl') = Enable (rp cl)
    ∧ onDisconnection cl' = onDisconnection cl
    ∧ reconnectChannel cl' = reconnectChannel cl
    ∧ goroutines w' = goroutines w
    ∧ connects w' = connects w.
Proof.
  induction calls as [|call calls IH]; intros cb w cl Hnot Hc; cbn [chain].
  - exists w, cl. split; [reflexivity|]. split; [exact Hc|]. repeat split.
  - apply not_elem_of_cons in Hnot as [Hne Hnot].
    destruct (apply_call_plain cb call w cl) as (w1 & cl1 & H1 & Hc1 & He1 & Ho1 & Hr1 & Hg1 & Hn1);
      [congruence | exact Hc |].
    destruct (IH cb w1 cl1 Hnot Hc1) as (w2 & cl2 & H2 & Hc2 & He2 & Ho2 & Hr2 & Hg2 & Hn2).
    exists w2, cl2. split; [rewrite (bind_Ok _ _ _ _ _ H1); exact H2|].
    split; [exact Hc2|]. repeat split; congruence.
Qed.

Lemma report_disconnect_no_callback w c cl :
  heap w !! c = Some cl → onDisconnection cl = None →
  step (Disconnected c) w = Ok tt w.
Proof.
  intros Hc Ho. cbn [step]. unfold report_disconnect. exec_with Hc. now rewrite Ho.
Qed.

(** C7. A client built by a chain that never calls [EnableReconnection]: the
    build starts no goroutine and calls no transport, the client has no
    disconnect callback and a nil reconnect channel, and from then on,
    whatever happened in between, a disconnect reported by the Channel
    changes nothing: it starts nothing and calls no transport. *)
Theorem no_redial_without_reconnection t calls u w0 :
  CallEnableReconnection ∉ calls →
  ∃ c w' cl,
    build t calls u w0 = Ok c w'
    ∧ heap w' !! c = Some cl
    ∧ Enable (rp cl) = false
    ∧ onDisconnection cl = None
    ∧ reconnectChannel cl = ChanNil
    ∧ goroutines w' = goroutines w0
    ∧ connects w' = connects w0
    ∧ ∀ sched,
        step (Disconnected c) (final (run sched w')) = Ok tt (final (run sched w')).
Proof.
  intros Hnot.
  set (c := fresh (dom (heap w0))).
  set (cl0 := mkClient ∅ None None false t (mkPolicy false 0 None) ChanNil "" false).
  set (w1 := mkWorld (<[c := cl0]> (heap w0)) (goroutines w0) (connects w0) (trace w0)).
  assert (NewClientBuilder t w0 = Ok (mkBuilder c) w1) as Hnew by reflexivity.
  destruct (chain_plain calls (mkBuilder c) w1 cl0 Hnot)
    as (w2 & cl2 & Hchain & Hc2 & He2 & Ho2 & Hr2 & Hg2 & Hn2);
    [apply lookup_insert_eq|].
  cbn [client] in Hc2.
  set (cl3 := set_url u (set_alive false cl2)).
  set (w3 := mkWorld (<[c := cl3]> (heap w2)) (goroutines w2) (connects w2) (trace w2)).
  assert (Builder.BuildToConnect (mkBuilder c) u w2 = Ok c w3) as Hbuild.
  { unfold Builder.BuildToConnect, initChannel. cbn [client]. exec_with Hc2.
    rewrite He2. cbn. rewrite lookup_insert_eq. cbn.
    unfold w3, cl3. now rewrite insert_insert_eq. }
  exists c, w3, cl3. split.
  { unfold build. rewrite (bind_Ok _ _ _ _ _ Hnew).
    rewrite (bind_Ok _ _ _ _ _ Hchain). exact Hbuild. }
  assert (heap w3 !! c = Some cl3) as Hc3 by apply lookup_insert_eq.
  split; [exact Hc3|]. split; [exact He2|]. split; [exact Ho2|].
  split; [exact Hr2|]. split; [exact Hg2|]. split; [exact Hn2|].
  intros sched.
  destruct (run_frame sched w3) as [Hh _].
  destruct (Hh c cl3 Hc3) as (cl4 & Hc4 & Ho4 & _).
  apply (report_disconnect_no_callback _ _ cl4 Hc4). now rewrite Ho4.
Qed.

Lemma no_redial_without_reconnection_witness :
  (CallEnableReconnection
     ∉ [CallReconnectionTimeout 10000000; CallOnReconnectionError (Some 2%nat)])
  ∧ ∃ c w' cl,
      build Samples.accepting
        [CallReconnectionTimeout 10000000; CallOnReconnectionError (Some 2%nat)]
        "ws://h:1/" empty_world = Ok c w'
      ∧ heap w' !! c = Some cl
      ∧ Enable (rp cl) = false
      ∧ onDisconnection cl = None
      ∧ reconnectChannel cl = ChanNil
      ∧ goroutines w' = []
      ∧ connects w' = 0%nat
      ∧ ∀ sched,
          step (Disconnected c) (final (run sched w')) = Ok tt (final (run sched w')).
Proof.
  assert (CallEnableReconnection
            ∉ [CallReconnectionTimeout 10000000; CallOnReconnectionError (Some 2%nat)])
    as Hnot.
  { intros H. repeat (apply elem_of_cons in H as [H|H]; [discriminate|]).
    inversion H. }
  split; [exact Hnot|].
  exact (no_redial_without_reconnection Samples.accepting _ "ws://h:1/" empty_world Hnot).
Defined.

(** ** The disconnect callback against Close *)

(** A run of the callback that stands at its send while the channel is
    closed: the send panics. *)
Lemma send_after_close w i c cl :
  heap w !! c = Some cl → reconnectChannel cl = ChanClosed →
  goroutines w !! i = Some (GoDisconnect c CbSend) →
  step (Run i) w = Panic "send on closed channel" w.
Proof.
  intros Hc Hch Hi. unfold step. unfold mbind at 1.
  unfold M_bind, bind, get_goroutines. rewrite Hi. cbn [step_goroutine].
  exec_with Hc. now rewrite Hch.
Qed.

(** C9, the failing run. A client built with reconnection and dialed; the
    Channel reports a disconnect and the callback finds the client open
    (line 141); the application calls [Close], which clears [open] and closes
    the channel; the callback goes on to its send (line 142), which panics
    with "send on closed channel". *)
Theorem send_on_closed_channel :
  ∃ w, (c ← build Samples.accepting [CallEnableReconnection] "ws://h:1/";
        Dial c;;
        run [Disconnected c; Run 4; CallClose c; Run 4]) empty_world
       = Panic "send on closed channel" w.
Proof. eexists. vm_compute. reflexivity. Qed.

(** * Further properties of client.go *)

(** ** Close and Dial, composed *)

Lemma Close_nil w c : heap w !! c = None → ∃ msg, Close c w = Panic msg w.
Proof. intros Hc. unfold Close. exec_with Hc. eauto. Qed.

(** [Close] on an open client whose reconnect channel is already closed:
    [close] panics, after [open] was cleared. *)
Lemma Close_closed_channel w c cl :
  heap w !! c = Some cl → open cl = true → reconnectChannel cl = ChanClosed →
  Close c w
    = Panic "close of closed channel"
        (mkWorld (<[c := set_open false cl]> (heap w)) (goroutines w) (connects w)
           (trace w)).
Proof.
  intros Hc Ho Hch. unfold Close, close_reconnectChannel.
  exec_with Hc. rewrite Ho. exec_with Hc. rewrite Hch. reflexivity.
Qed.

(** X1. What [Close] does to the fields of the client itself, which
    [closeChannel] cannot reach. Whether [Close] returns or panics, the client
    is left not open, with the transport, the URL and the policy it had. On a
    client that is not open [Close] returns and changes nothing; on an open
    client with an open reconnect channel it closes the channel; on an open
    client whose reconnect channel is nil or already closed it panics at the
    [close], before [closeChannel] is reached, and leaves the channel as it
    was. *)
Theorem Close_leaves_not_open w c cl :
  heap w !! c = Some cl →
  ∃ cl',
    heap (final (Close c w)) !! c = Some cl'
    ∧ open cl' = false
    ∧ tr cl' = tr cl ∧ url cl' = url cl ∧ rp cl' = rp cl
    ∧ (open cl = false → Close c w = Ok tt w)
    ∧ (open cl = true → reconnectChannel cl = ChanOpen →
       reconnectChannel cl' = ChanClosed)
    ∧ (open cl = true → reconnectChannel cl ≠ ChanOpen →
       reconnectChannel cl' = reconnectChannel cl
       ∧ ∃ msg, Close c w = Panic msg (final (Close c w))).
Proof.
  intros Hc. destruct (open cl) eqn:Ho.
  2:{ rewrite (Close_not_open _ _ _ Hc Ho). cbn [final].
      exists cl. split; [exact Hc|]. split; [exact Ho|].
      repeat split; try reflexivity; discriminate. }
  destruct (reconnectChannel cl) eqn:Hch.
  - rewrite (Close_nil_channel _ _ _ Hc Ho Hch). cbn [final heap].
    rewrite lookup_insert_eq. eexists. split; [reflexivity|].
    do 4 (split; [reflexivity|]). split; [discriminate|].
    split; [discriminate|]. intros _ _. split; [exact Hch | eauto].
  - rewrite (Close_open _ _ _ Hc Ho Hch). cbn [final heap].
    rewrite lookup_insert_eq. eexists. split; [reflexivity|].
    do 4 (split; [reflexivity|]). split; [discriminate|].
    split; [reflexivity|]. intros _ Hne. now destruct Hne.
  - rewrite (Close_closed_channel _ _ _ Hc Ho Hch). cbn [final heap].
    rewrite lookup_insert_eq. eexists. split; [reflexivity|].
    do 4 (split; [reflexivity|]). split; [discriminate|].
    split; [discriminate|]. intros _ _. split; [exact Hch | eauto].
Qed.

Lemma Close_leaves_not_open_witness :
  let p := mkPolicy true 0 None in
  let w := Samples.redialing Samples.accepting p in
  let cl := Samples.lost Samples.accepting p in
  heap w !! 1%positive = Some cl
  ∧ open cl = true
  ∧ reconnectChannel cl = ChanOpen
  ∧ ∃ cl',
      heap (final (Close 1%positive w)) !! 1%positive = Some cl'
      ∧ open cl' = false
      ∧ tr cl' = tr cl ∧ url cl' = url cl ∧ rp cl' = rp cl
      ∧ (open cl = false → Close 1%positive w = Ok tt w)
      ∧ (open cl = true → reconnectChannel cl = ChanOpen →
         reconnectChannel cl' = ChanClosed)
      ∧ (open cl = true → reconnectChannel cl ≠ ChanOpen →
         reconnectChannel cl' = reconnectChannel cl
         ∧ ∃ msg, Close 1%positive w = Panic msg (final (Close 1%positive w))).
Proof.
  intros p w cl. do 3 (split; [reflexivity|]).
  exact (Close_leaves_not_open w 1%positive cl eq_refl).
Defined.

(** X2. A successful [Dial] followed by [Close], on a client whose reconnect
    channel is open: both return; the client is not open, its Channel is not
    alive, the reconnect channel is closed, and the connection opened by
    [Dial] is still stored. *)
Theorem Dial_then_Close w c cl cn :
  heap w !! c = Some cl →
  reconnectChannel cl = ChanOpen →
  tr cl (connects w) (url cl) = (cn, None) →
  ∃ w' cl',
    (Dial c;; Close c) w = Ok tt w'
    ∧ heap w' !! c = Some cl'
    ∧ open cl' = false ∧ alive cl' = false
    ∧ reconnectChannel cl' = ChanClosed
    ∧ conn cl' = cn
    ∧ goroutines w'
      = goroutines w ++ [GoPump inLoop c; GoPump outLoop c; GoPump pinger c]
    ∧ connects w' = S (connects w)
    ∧ trace w' = trace w ++ [EvConnect (url cl)].
Proof.
  intros Hc Hch Htr.
  pose proof (Dial_eq _ _ _ Hc) as HD. cbn zeta in HD. rewrite Htr in HD.
  cbn [fst snd] in HD. rewrite (bind_Ok _ _ _ _ _ HD).
  erewrite Close_open; [|apply lookup_insert_eq|reflexivity|exact Hch].
  eexists _, _. split; [reflexivity|]. cbn [heap goroutines connects trace].
  rewrite lookup_insert_eq. repeat split.
Qed.

Lemma Dial_then_Close_witness :
  let p := mkPolicy true 0 None in
  let w := Samples.redialing Samples.accepting p in
  let cl := Samples.lost Samples.accepting p in
  heap w !! 1%positive = Some cl
  ∧ reconnectChannel cl = ChanOpen
  ∧ tr cl (connects w) (url cl) = (Some 1%nat, None)
  ∧ ∃ w' cl',
      (Dial 1%positive;; Close 1%positive) w = Ok tt w'
      ∧ heap w' !! 1%positive = Some cl'
      ∧ open cl' = false ∧ alive cl' = false
      ∧ reconnectChannel cl' = ChanClosed
      ∧ conn cl' = Some 1%nat
      ∧ goroutines w'
        = goroutines w ++ [GoPump inLoop 1%positive; GoPump outLoop 1%positive;
                           GoPump pinger 1%positive]
      ∧ connects w' = S (connects w)
      ∧ trace w' = trace w ++ [EvConnect (url cl)].
Proof.
  intros p w cl. split; [reflexivity|]. split; [reflexivity|]. split; [reflexivity|].
  exact (Dial_then_Close w 1%positive cl (Some 1%nat) eq_refl eq_refl eq_refl).
Defined.

(** X3. [Close], then a successful [Dial], then [Close] again, on an open
    client with an open reconnect channel: [Dial] does not refuse a closed
    client and sets [open] again, so the second [Close] closes the channel a
    second time and panics with "close of closed channel". *)
Theorem Close_after_redial_panics w c cl cn :
  heap w !! c = Some cl →
  open cl = true →
  reconnectChannel cl = ChanOpen →
  tr cl (connects w) (url cl) = (cn, None) →
  ∃ w', run [CallClose c; CallDial c; CallClose c] w
        = Panic "close of closed channel" w'.
Proof.
  intros Hc Ho Hch Htr. cbn [run step].
  rewrite (bind_Ok _ _ _ _ _ (Close_open _ _ _ Hc Ho Hch)).
  set (cl1 := set_alive false (set_reconnectChannel ChanClosed (set_open false cl))).
  set (w1 := mkWorld (<[c := cl1]> (heap w)) (goroutines w) (connects w) (trace w)).
  assert (heap w1 !! c = Some cl1) as Hc1 by apply lookup_insert_eq.
  pose proof (Dial_eq _ _ _ Hc1) as HD. cbn zeta in HD.
  change (tr cl1 (connects w1) (url cl1)) with (tr cl (connects w) (url cl)) in HD.
  rewrite Htr in HD. cbn [fst snd] in HD.
  erewrite bind_Ok; [|erewrite bind_Ok; [reflexivity | exact HD]].
  erewrite bind_Panic; [eexists; reflexivity|].
  apply Close_closed_channel with (cl := set_open true (set_alive true (set_conn cn cl1)));
    [apply lookup_insert_eq | reflexivity | reflexivity].
Qed.

Lemma Close_after_redial_panics_witness :
  let p := mkPolicy true 0 None in
  let w := Samples.redialing Samples.accepting p in
  let cl := Samples.lost Samples.accepting p in
  heap w !! 1%positive = Some cl
  ∧ open cl = true
  ∧ reconnectChannel cl = ChanOpen
  ∧ tr cl (connects w) (url cl) = (Some 1%nat, None)
  ∧ ∃ w', run [CallClose 1%positive; CallDial 1%positive; CallClose 1%positive] w
          = Panic "close of closed channel" w'.
Proof.
  intros p w cl. repeat (split; [reflexivity|]).
  exact (Close_after_redial_panics w 1%positive cl (Some 1%nat)
           eq_refl eq_refl eq_refl eq_refl).
Defined.

(** X4. Two successful [Dial]s in a row: the second is not refused; it
    replaces the stored connection by the new one and starts a second set of
    three pumps beside the first. *)
Theorem Dial_twice w c cl cn1 cn2 :
  heap w !! c = Some cl →
  tr cl (connects w) (url cl) = (cn1, None) →
  tr cl (S (connects w)) (url cl) = (cn2, None) →
  ∃ w' cl',
    (Dial c;; Dial c) w = Ok None w'
    ∧ heap w' !! c = Some cl'
    ∧ conn cl' = cn2 ∧ open cl' = true ∧ alive cl' = true
    ∧ goroutines w'
      = goroutines w ++ [GoPump inLoop c; GoPump outLoop c; GoPump pinger c;
                         GoPump inLoop c; GoPump outLoop c; GoPump pinger c]
    ∧ connects w' = S (S (connects w)).
Proof.
  intros Hc Htr1 Htr2.
  pose proof (Dial_eq _ _ _ Hc) as HD. cbn zeta in HD. rewrite Htr1 in HD.
  cbn [fst snd] in HD. rewrite (bind_Ok _ _ _ _ _ HD).
  erewrite Dial_eq; [|apply lookup_insert_eq]. cbn zeta.
  cbn [connects tr url set_open set_alive set_conn]. rewrite Htr2. cbn [fst snd].
  eexists _, _. split; [reflexivity|]. cbn [heap goroutines connects].
  rewrite lookup_insert_eq. split; [reflexivity|].
  repeat split. now rewrite <- app_assoc.
Qed.

Lemma Dial_twice_witness :
  let p := mkPolicy true 0 None in
  let w := Samples.redialing Samples.accepting p in
  let cl := Samples.lost Samples.accepting p in
  heap w !! 1%positive = Some cl
  ∧ tr cl (connects w) (url cl) = (Some 1%nat, None)
  ∧ tr cl (S (connects w)) (url cl) = (Some 2%nat, None)
  ∧ ∃ w' cl',
      (Dial 1%positive;; Dial 1%positive) w = Ok None w'
      ∧ heap w' !! 1%positive = Some cl'
      ∧ conn cl' = Some 2%nat ∧ open cl' = true ∧ alive cl' = true
      ∧ goroutines w'
        = goroutines w ++ [GoPump inLoop 1%positive; GoPump outLoop 1%positive;
                           GoPump pinger 1%positive; GoPump inLoop 1%positive;
                           GoPump outLoop 1%positive; GoPump pinger 1%positive]
      ∧ connects w' = S (S (connects w)).
Proof.
  intros p w cl. repeat (split; [reflexivity|]).
  exact (Dial_twice w 1%positive cl (Some 1%nat) (Some 2%nat) eq_refl eq_refl eq_refl).
Defined.

(** ** The channel between the callback and the reconnection task *)

Lemma step_Run w i g :
  goroutines w !! i = Some g → step (Run i) w = step_goroutine i g w.
Proof.
  intros Hi. unfold step, mbind, M_bind, bind, get_goroutines. now rewrite Hi.
Qed.

Lemma find_goroutine_spec g gs j :
  find_goroutine g gs = Some j
  ↔ gs !! j = Some g ∧ ∀ k, (k < j)%nat → gs !! k ≠ Some g.
Proof.
  unfold find_goroutine. split.
  - destruct (list_find _ gs) as [[j' g']|] eqn:Hf; [|discriminate].
    intros [= <-]. apply list_find_Some in Hf as (Hj & -> & Hlt).
    split; [exact Hj|]. intros k Hk Hgk. exact (Hlt k g Hgk Hk eq_refl).
  - intros [Hj Hlt].
    assert (list_find (λ g', g' = g) gs = Some (j, g)) as ->; [|reflexivity].
    apply list_find_Some. split; [exact Hj|]. split; [reflexivity|].
    intros k y Hk Hkj ->. exact (Hlt k Hkj Hk).
Qed.

Lemma find_goroutine_None g gs :
  find_goroutine g gs = None ↔ ∀ k, gs !! k ≠ Some g.
Proof.
  unfold find_goroutine. split.
  - destruct (list_find _ gs) as [[j' g']|] eqn:Hf; [discriminate|].
    intros _ k Hk. apply list_find_None in Hf.
    apply (proj1 (Forall_lookup _ _) Hf k g Hk). reflexivity.
  - intros Hno. destruct (list_find _ gs) as [[j' g']|] eqn:Hf; [|reflexivity].
    apply list_find_Some in Hf as (Hj & -> & _). now destruct (Hno j').
Qed.

Lemma find_goroutine_app_l g gs extra j :
  find_goroutine g gs = Some j → find_goroutine g (gs ++ extra) = Some j.
Proof.
  rewrite !find_goroutine_spec. intros [Hj Hlt]. split.
  - now apply lookup_app_l_Some.
  - intros k Hk. rewrite lookup_app_l; [now apply Hlt|].
    apply lookup_lt_Some in Hj. lia.
Qed.

Lemma find_goroutine_insert g gs i g' j :
  find_goroutine g gs = Some j → g' ≠ g → gs !! i ≠ Some g →
  find_goroutine g (<[i := g']> gs) = Some j.
Proof.
  rewrite !find_goroutine_spec. intros [Hj Hlt] Hg' Hi.
  assert (i ≠ j) as Hij by (intros ->; contradiction).
  split.
  - now rewrite list_lookup_insert_ne.
  - intros k Hk. destruct (decide (i = k)) as [<-|Hne].
    + intros Hk'. apply list_lookup_insert_Some in Hk' as [(_ & Hgg & _)|(? & _)];
        [now apply Hg' | congruence].
    + rewrite list_lookup_insert_ne by exact Hne. now apply Hlt.
Qed.

(** X5. [Close] on an open client stops the reconnection task: with the task
    at its receive, [Close] followed by the next step of the task leaves the
    client closed and the goroutine returned, without any transport call. *)
Theorem Close_stops_task w i c cl :
  heap w !! c = Some cl →
  open cl = true →
  reconnectChannel cl = ChanOpen →
  goroutines w !! i = Some (GoSupervisor c SupRecv) →
  run [CallClose c; Run i] w
    = Ok tt
        (mkWorld
           (<[c := set_alive false (set_reconnectChannel ChanClosed (set_open false cl))]>
              (heap w))
           (<[i := GoDone]> (goroutines w)) (connects w) (trace w)).
Proof.
  intros Hc Ho Hch Hi. cbn [run].
  rewrite (bind_Ok _ _ _ _ _ (Close_open _ _ _ Hc Ho Hch : step (CallClose c) w = _)).
  set (w1 := mkWorld _ (goroutines w) (connects w) (trace w)).
  erewrite bind_Ok; [reflexivity|].
  rewrite (step_Run w1 i _ Hi). cbn [step_goroutine].
  unfold mbind, M_bind, bind, load. cbn [heap w1]. rewrite lookup_insert_eq.
  reflexivity.
Qed.

Lemma Close_stops_task_witness :
  let p := mkPolicy true 0 None in
  let cl := Samples.lost Samples.accepting p in
  let w := mkWorld {[ 1%positive := cl ]} [GoSupervisor 1%positive SupRecv] 1 [] in
  heap w !! 1%positive = Some cl
  ∧ open cl = true
  ∧ reconnectChannel cl = ChanOpen
  ∧ goroutines w !! 0%nat = Some (GoSupervisor 1%positive SupRecv)
  ∧ run [CallClose 1%positive; Run 0] w
    = Ok tt
        (mkWorld
           (<[1%positive :=
                set_alive false (set_reconnectChannel ChanClosed (set_open false cl))]>
              (heap w))
           (<[0%nat := GoDone]> (goroutines w)) (connects w) (trace w)).
Proof.
  intros p cl w. repeat (split; [reflexivity|]).
  exact (Close_stops_task w 0%nat 1%positive cl eq_refl eq_refl eq_refl eq_refl).
Defined.

Lemma insert_snoc {A} (l : list A) (x y : A) : <[length l := y]> (l ++ [x]) = l ++ [y].
Proof. rewrite insert_app_r_alt by lia. now rewrite Nat.sub_diag. Qed.

Lemma lookup_snoc {A} (l : list A) (x : A) : (l ++ [x]) !! length l = Some x.
Proof. apply list_lookup_middle. reflexivity. Qed.

(** The task at its receive, the channel open and nothing to receive: the
    goroutine is blocked, its step changes nothing. *)
Lemma step_recv_blocked w i c cl :
  heap w !! c = Some cl → reconnectChannel cl = ChanOpen →
  goroutines w !! i = Some (GoSupervisor c SupRecv) →
  find_goroutine (GoDisconnect c CbSend) (goroutines w) = None →
  step (Run i) w = Ok tt w.
Proof.
  intros Hc Hch Hi Hf. rewrite (step_Run _ _ _ Hi). cbn [step_goroutine].
  exec_with Hc. rewrite Hch. exec_with Hc. now rewrite Hf.
Qed.

(** X6. [Close] on a client that is not open (built with reconnection but
    never dialed with success) does not close the reconnect channel: the
    reconnection task stays blocked at its receive, however often it is
    scheduled afterwards. *)
Theorem Close_before_Dial_leaves_task n w i c cl :
  heap w !! c = Some cl →
  open cl = false →
  reconnectChannel cl = ChanOpen →
  goroutines w !! i = Some (GoSupervisor c SupRecv) →
  find_goroutine (GoDisconnect c CbSend) (goroutines w) = None →
  run (CallClose c :: replicate n (Run i)) w = Ok tt w.
Proof.
  intros Hc Ho Hch Hi Hf. cbn [run].
  rewrite (bind_Ok _ _ _ _ _ (Close_not_open _ _ _ Hc Ho : step (CallClose c) w = _)).
  induction n as [|n IH]; cbn [replicate run]; [reflexivity|].
  now rewrite (bind_Ok _ _ _ _ _ (step_recv_blocked _ _ _ _ Hc Hch Hi Hf)).
Qed.

Lemma Close_before_Dial_leaves_task_witness :
  let p := mkPolicy true 0 None in
  let cl := mkClient ∅ (Some (signalReconnect 1%positive)) None false
              Samples.accepting p ChanOpen "ws://h:1/" false in
  let w := mkWorld {[ 1%positive := cl ]} [GoSupervisor 1%positive SupRecv] 0 [] in
  heap w !! 1%positive = Some cl
  ∧ open cl = false
  ∧ reconnectChannel cl = ChanOpen
  ∧ goroutines w !! 0%nat = Some (GoSupervisor 1%positive SupRecv)
  ∧ find_goroutine (GoDisconnect 1%positive CbSend) (goroutines w) = None
  ∧ run (CallClose 1%positive :: replicate 5 (Run 0)) w = Ok tt w.
Proof.
  intros p cl w. repeat (split; [reflexivity|]).
  exact (Close_before_Dial_leaves_task 5 w 0%nat 1%positive cl
           eq_refl eq_refl eq_refl eq_refl eq_refl).
Defined.

(** X7. A disconnect reported for an open client whose reconnection task
    waits at its receive: the callback finds the client open and sends, the
    task receives and enters its retry loop, and the callback returns. No
    transport call is made yet and the client is left as it was. *)
Theorem disconnect_starts_cycle w i c cl :
  heap w !! c = Some cl →
  open cl = true →
  reconnectChannel cl = ChanOpen →
  onDisconnection cl = Some (signalReconnect c) →
  find_goroutine (GoSupervisor c SupRecv) (goroutines w) = Some i →
  run [Disconnected c; Run (length (goroutines w)); Run (length (goroutines w))] w
    = Ok tt
        (mkWorld (heap w)
           (<[i := GoSupervisor c SupRetry]> (goroutines w) ++ [GoDone])
           (connects w) (trace w)).
Proof.
  intros Hc Ho Hch Hcb Hf. cbn [run].
  set (n := length (goroutines w)).
  set (w1 := mkWorld (heap w) (goroutines w ++ [GoDisconnect c CbCheck])
               (connects w) (trace w)).
  set (w2 := mkWorld (heap w) (goroutines w ++ [GoDisconnect c CbSend])
               (connects w) (trace w)).
  assert (step (Disconnected c) w = Ok tt w1) as H1.
  { cbn [step]. unfold report_disconnect. exec_with Hc. now rewrite Hcb. }
  assert (step (Run n) w1 = Ok tt w2) as H2.
  { rewrite (step_Run w1 n (GoDisconnect c CbCheck)) by apply lookup_snoc.
    cbn [step_goroutine]. unfold mbind, M_bind, bind, load, set_goroutine.
    cbn [heap w1 goroutines connects trace]. rewrite Hc, Ho.
    unfold w2, w1, n. cbn [heap goroutines connects trace].
    now rewrite insert_snoc. }
  rewrite (bind_Ok _ _ _ _ _ H1), (bind_Ok _ _ _ _ _ H2).
  erewrite bind_Ok; [reflexivity|].
  rewrite (step_Run w2 n (GoDisconnect c CbSend)) by apply lookup_snoc.
  cbn [step_goroutine]. unfold mbind, M_bind, bind, load, get_goroutines, set_goroutine.
  cbn [heap w2 goroutines connects trace]. rewrite Hc, Hch.
  unfold w2. cbn [heap goroutines connects trace].
  rewrite (find_goroutine_app_l _ _ _ _ Hf). cbn [goroutines heap connects trace].
  f_equal. f_equal.
  apply find_goroutine_spec in Hf as [Hi _]. apply lookup_lt_Some in Hi.
  rewrite insert_app_l by exact Hi.
  replace n with (length (<[i := GoSupervisor c SupRetry]> (goroutines w)))
    by (unfold n; apply length_insert).
  apply insert_snoc.
Qed.

Lemma disconnect_starts_cycle_witness :
  let p := mkPolicy true 0 None in
  let cl := Samples.lost Samples.accepting p in
  let w := mkWorld {[ 1%positive := cl ]}
             [GoPump inLoop 1%positive; GoSupervisor 1%positive SupRecv] 1 [] in
  heap w !! 1%positive = Some cl
  ∧ open cl = true
  ∧ reconnectChannel cl = ChanOpen
  ∧ onDisconnection cl = Some (signalReconnect 1%positive)
  ∧ find_goroutine (GoSupervisor 1%positive SupRecv) (goroutines w) = Some 1%nat
  ∧ run [Disconnected 1%positive; Run 2; Run 2] w
    = Ok tt
        (mkWorld (heap w)
           [GoPump inLoop 1%positive; GoSupervisor 1%positive SupRetry; GoDone]
           (connects w) (trace w)).
Proof.
  intros p cl w. repeat (split; [reflexivity|]).
  exact (disconnect_starts_cycle w 1%nat 1%positive cl
           eq_refl eq_refl eq_refl eq_refl eq_refl).
Defined.

(** X8. A disconnect reported for a client that is not open, as after
    [Close]: the callback finds [open] false and returns without sending; no
    goroutine but its own changes and nothing is signalled. *)
Theorem disconnect_of_closed_client_is_dropped w c cl :
  heap w !! c = Some cl →
  open cl = false →
  onDisconnection cl = Some (signalReconnect c) →
  run [Disconnected c; Run (length (goroutines w))] w
    = Ok tt (mkWorld (heap w) (goroutines w ++ [GoDone]) (connects w) (trace w)).
Proof.
  intros Hc Ho Hcb. cbn [run].
  set (n := length (goroutines w)).
  set (w1 := mkWorld (heap w) (goroutines w ++ [GoDisconnect c CbCheck])
               (connects w) (trace w)).
  assert (step (Disconnected c) w = Ok tt w1) as H1.
  { cbn [step]. unfold report_disconnect. exec_with Hc. now rewrite Hcb. }
  rewrite (bind_Ok _ _ _ _ _ H1).
  erewrite bind_Ok; [reflexivity|].
  rewrite (step_Run w1 n (GoDisconnect c CbCheck)) by apply lookup_snoc.
  cbn [step_goroutine]. unfold mbind, M_bind, bind, load, set_goroutine.
  cbn [heap w1 goroutines connects trace]. rewrite Hc, Ho.
  unfold w1, n. cbn [heap goroutines connects trace]. now rewrite insert_snoc.
Qed.

Lemma disconnect_of_closed_client_is_dropped_witness :
  heap Samples.closed !! 1%positive = Some Samples.closed_client
  ∧ open Samples.closed_client = false
  ∧ onDisconnection Samples.closed_client = Some (signalReconnect 1%positive)
  ∧ run [Disconnected 1%positive; Run (length (goroutines Samples.closed))]
      Samples.closed
    = Ok tt (mkWorld (heap Samples.closed) (goroutines Samples.closed ++ [GoDone])
               (connects Samples.closed) (trace Samples.closed)).
Proof.
  repeat (split; [reflexivity|]).
  exact (disconnect_of_closed_client_is_dropped Samples.closed 1%positive
           Samples.closed_client eq_refl eq_refl eq_refl).
Defined.

(** ** The retry loop against Close and late signals *)

(** A turn of the retry loop whose attempt succeeds. *)
Lemma step_retry_connected w i c cl cn :
  heap w !! c = Some cl →
  goroutines w !! i = Some (GoSupervisor c SupRetry) →
  tr cl (connects w) (url cl) = (cn, None) →
  step (Run i) w
    = Ok tt
        (mkWorld (<[c := set_open true (set_alive true (set_conn cn cl))]> (heap w))
           (<[i := GoSupervisor c SupRecv]>
              (goroutines w ++ [GoPump inLoop c; GoPump outLoop c; GoPump pinger c]))
           (S (connects w))
           (trace w ++ [EvSleep (expected_delay (ReconnectionTimeout (rp cl)));
                        EvConnect (url cl)])).
Proof.
  intros Hc Hi Htr. rewrite (step_retry _ _ _ Hi).
  unfold mbind, M_bind, bind. rewrite (retry_once_eq _ _ _ Hc). cbn zeta.
  now rewrite Htr.
Qed.

(** A turn of the retry loop whose attempt fails. *)
Lemma step_retry_refused w i c cl cn e :
  heap w !! c = Some cl →
  goroutines w !! i = Some (GoSupervisor c SupRetry) →
  tr cl (connects w) (url cl) = (cn, Some e) →
  step (Run i) w
    = Ok tt
        (mkWorld (<[c := set_conn cn cl]> (heap w)) (goroutines w) (S (connects w))
           (trace w ++ [EvSleep (expected_delay (ReconnectionTimeout (rp cl)));
                        EvConnect (url cl)] ++ failure_events (rp cl) e)).
Proof.
  intros Hc Hi Htr. rewrite (step_retry _ _ _ Hi).
  unfold mbind, M_bind, bind. rewrite (retry_once_eq _ _ _ Hc). cbn zeta.
  rewrite Htr. cbn [fst snd]. unfold set_goroutine.
  cbn [heap goroutines connects trace]. now rewrite (list_insert_id _ _ _ Hi).
Qed.

(** X9. [Close] does not cancel a reconnection cycle under way. With the
    reconnect channel already closed and the task in its retry loop, the next
    attempt, when it succeeds, sets the client open and alive again and starts
    pumps; only then does the task return at its receive. The client is left
    open with a closed channel, so that a further [Close] panics with "close
    of closed channel". *)
Theorem redial_survives_Close w i c cl cn :
  heap w !! c = Some cl →
  reconnectChannel cl = ChanClosed →
  goroutines w !! i = Some (GoSupervisor c SupRetry) →
  tr cl (connects w) (url cl) = (cn, None) →
  ∃ w' cl',
    run [Run i; Run i] w = Ok tt w'
    ∧ heap w' !! c = Some cl'
    ∧ open cl' = true ∧ alive cl' = true ∧ conn cl' = cn
    ∧ reconnectChannel cl' = ChanClosed
    ∧ goroutines w'
      = <[i := GoDone]>
          (goroutines w ++ [GoPump inLoop c; GoPump outLoop c; GoPump pinger c])
    ∧ connects w' = S (connects w)
    ∧ ∃ w'', Close c w' = Panic "close of closed channel" w''.
Proof.
  intros Hc Hch Hi Htr. cbn [run].
  rewrite (bind_Ok _ _ _ _ _ (step_retry_connected _ _ _ _ _ Hc Hi Htr)).
  set (cl1 := set_open true (set_alive true (set_conn cn cl))).
  set (gs1 := <[i := GoSupervisor c SupRecv]> (goroutines w ++ _)).
  set (w1 := mkWorld (<[c := cl1]> (heap w)) gs1 _ _).
  assert (heap w1 !! c = Some cl1) as Hc1 by apply lookup_insert_eq.
  assert (gs1 !! i = Some (GoSupervisor c SupRecv)) as Hi1.
  { apply list_lookup_insert_eq. rewrite length_app.
    apply lookup_lt_Some in Hi. lia. }
  set (w2 := mkWorld (heap w1) (<[i := GoDone]> gs1) (connects w1) (trace w1)).
  assert (step (Run i) w1 = Ok tt w2) as H2.
  { rewrite (step_Run w1 i _ Hi1). cbn [step_goroutine].
    unfold mbind, M_bind, bind, load. rewrite Hc1.
    change (reconnectChannel cl1) with (reconnectChannel cl). now rewrite Hch. }
  rewrite (bind_Ok _ _ _ _ _ H2).
  exists w2, cl1. split; [reflexivity|]. split; [exact Hc1|].
  repeat (split; [reflexivity|]). split; [exact Hch|]. split.
  { unfold w2, gs1. cbn [goroutines]. apply list_insert_insert_eq. }
  split; [reflexivity|].
  eexists. apply (Close_closed_channel w2 c cl1 Hc1 eq_refl Hch).
Qed.

Lemma redial_survives_Close_witness :
  let p := mkPolicy true 0 None in
  let cl := mkClient ∅ (Some (signalReconnect 1%positive)) (Some 7%nat) false
              Samples.accepting p ChanClosed "ws://h:1/" false in
  let w := mkWorld {[ 1%positive := cl ]} [GoSupervisor 1%positive SupRetry] 1 [] in
  heap w !! 1%positive = Some cl
  ∧ reconnectChannel cl = ChanClosed
  ∧ goroutines w !! 0%nat = Some (GoSupervisor 1%positive SupRetry)
  ∧ tr cl (connects w) (url cl) = (Some 1%nat, None)
  ∧ ∃ w' cl',
      run [Run 0; Run 0] w = Ok tt w'
      ∧ heap w' !! 1%positive = Some cl'
      ∧ open cl' = true ∧ alive cl' = true ∧ conn cl' = Some 1%nat
      ∧ reconnectChannel cl' = ChanClosed
      ∧ goroutines w'
        = <[0%nat := GoDone]>
            (goroutines w ++ [GoPump inLoop 1%positive; GoPump outLoop 1%positive;
                              GoPump pinger 1%positive])
      ∧ connects w' = S (connects w)
      ∧ ∃ w'', Close 1%positive w' = Panic "close of closed channel" w''.
Proof.
  intros p cl w. repeat (split; [reflexivity|]).
  exact (redial_survives_Close w 0%nat 1%positive cl (Some 1%nat)
           eq_refl eq_refl eq_refl eq_refl).
Defined.

(** X10. A signal that arrives while the task is in its retry loop is not
    lost: the callback stays blocked at its send, and once an attempt has
    succeeded and the task is back at its receive, its next step takes the
    signal and enters the retry loop again, for a client that is connected. *)
Theorem pending_signal_restarts_cycle w i j c cl cn :
  heap w !! c = Some cl →
  reconnectChannel cl = ChanOpen →
  goroutines w !! i = Some (GoSupervisor c SupRetry) →
  find_goroutine (GoSupervisor c SupRecv) (goroutines w) = None →
  find_goroutine (GoDisconnect c CbSend) (goroutines w) = Some j →
  tr cl (connects w) (url cl) = (cn, None) →
  step (Run j) w = Ok tt w
  ∧ ∃ w' cl',
      run [Run i; Run i] w = Ok tt w'
      ∧ heap w' !! c = Some cl'
      ∧ open cl' = true ∧ alive cl' = true ∧ conn cl' = cn
      ∧ goroutines w' !! i = Some (GoSupervisor c SupRetry)
      ∧ goroutines w' !! j = Some GoDone
      ∧ connects w' = S (connects w).
Proof.
  intros Hc Hch Hi Hnone Hf Htr.
  pose proof (proj1 (find_goroutine_spec _ _ _) Hf) as [Hj _].
  assert (i ≠ j) as Hij by congruence.
  assert (i < length (goroutines w))%nat as Hlt by (now apply lookup_lt_Some in Hi).
  assert (j < length (goroutines w))%nat as Hjlt by (now apply lookup_lt_Some in Hj).
  split.
  { rewrite (step_Run _ _ _ Hj). cbn [step_goroutine]. exec_with Hc. rewrite Hch.
    exec_with Hc. now rewrite Hnone. }
  cbn [run].
  rewrite (bind_Ok _ _ _ _ _ (step_retry_connected _ _ _ _ _ Hc Hi Htr)).
  set (cl1 := set_open true (set_alive true (set_conn cn cl))).
  set (pumps := [GoPump inLoop c; GoPump outLoop c; GoPump pinger c]).
  set (gs1 := <[i := GoSupervisor c SupRecv]> (goroutines w ++ pumps)).
  set (w1 := mkWorld (<[c := cl1]> (heap w)) gs1 _ _).
  assert (heap w1 !! c = Some cl1) as Hc1 by apply lookup_insert_eq.
  assert (gs1 !! i = Some (GoSupervisor c SupRecv)) as Hi1.
  { apply list_lookup_insert_eq. rewrite length_app. lia. }
  assert (find_goroutine (GoDisconnect c CbSend) gs1 = Some j) as Hf1.
  { apply find_goroutine_insert; [|discriminate|].
    - now apply find_goroutine_app_l.
    - rewrite (lookup_app_l_Some _ _ _ _ Hi). discriminate. }
  set (gs2 := <[i := GoSupervisor c SupRetry]> (<[j := GoDone]> gs1)).
  set (w2 := mkWorld (heap w1) gs2 (connects w1) (trace w1)).
  assert (step (Run i) w1 = Ok tt w2) as H2.
  { rewrite (step_Run w1 i _ Hi1). cbn [step_goroutine].
    unfold mbind, M_bind, bind, load, get_goroutines, set_goroutine. rewrite Hc1.
    change (reconnectChannel cl1) with (reconnectChannel cl). rewrite Hch.
    cbn [goroutines w1]. now rewrite Hf1. }
  rewrite (bind_Ok _ _ _ _ _ H2).
  exists w2, cl1. split; [reflexivity|]. split; [exact Hc1|].
  repeat (split; [reflexivity|]).
  assert (length gs1 = length (goroutines w ++ pumps)) as Hlen
    by apply length_insert.
  rewrite length_app in Hlen.
  split; [|split; [|reflexivity]]; unfold w2, gs2; cbn [goroutines].
  - apply list_lookup_insert_eq. rewrite length_insert. lia.
  - rewrite list_lookup_insert_ne by exact Hij.
    apply list_lookup_insert_eq. lia.
Qed.

Lemma pending_signal_restarts_cycle_witness :
  let p := mkPolicy true 0 None in
  let cl := Samples.lost Samples.accepting p in
  let w := mkWorld {[ 1%positive := cl ]}
             [GoSupervisor 1%positive SupRetry; GoDisconnect 1%positive CbSend] 1 [] in
  heap w !! 1%positive = Some cl
  ∧ reconnectChannel cl = ChanOpen
  ∧ goroutines w !! 0%nat = Some (GoSupervisor 1%positive SupRetry)
  ∧ find_goroutine (GoSupervisor 1%positive SupRecv) (goroutines w) = None
  ∧ find_goroutine (GoDisconnect 1%positive CbSend) (goroutines w) = Some 1%nat
  ∧ tr cl (connects w) (url cl) = (Some 1%nat, None)
  ∧ step (Run 1) w = Ok tt w
  ∧ ∃ w' cl',
      run [Run 0; Run 0] w = Ok tt w'
      ∧ heap w' !! 1%positive = Some cl'
      ∧ open cl' = true ∧ alive cl' = true ∧ conn cl' = Some 1%nat
      ∧ goroutines w' !! 0%nat = Some (GoSupervisor 1%positive SupRetry)
      ∧ goroutines w' !! 1%nat = Some GoDone
      ∧ connects w' = S (connects w).
Proof.
  intros p cl w. do 6 (split; [reflexivity|]).
  exact (pending_signal_restarts_cycle w 0%nat 1%nat 1%positive cl (Some 1%nat)
           eq_refl eq_refl eq_refl eq_refl eq_refl eq_refl).
Defined.

Lemma sleeps_app t1 t2 : sleeps (t1 ++ t2) = sleeps t1 ++ sleeps t2.
Proof. apply omap_app. Qed.

Lemma sleeps_failure_events p e : sleeps (failure_events p e) = [].
Proof. unfold failure_events. now destruct (OnReconnectionError p). Qed.

(** X11. The retry loop has no bound and no back-off. As long as the
    transport refuses, the task stays in its retry loop: after any number [n]
    of turns it has made [n] more transport calls, slept [n] times for the
    same delay, and it has left [open] and the aliveness of the Channel as
    they were. *)
Theorem retry_never_gives_up n : ∀ w i c cl,
  heap w !! c = Some cl →
  goroutines w !! i = Some (GoSupervisor c SupRetry) →
  (∀ k, (tr cl (connects w + k)%nat (url cl)).2 ≠ None) →
  ∃ w' cl',
    run (replicate n (Run i)) w = Ok tt w'
    ∧ goroutines w' = goroutines w
    ∧ connects w' = (connects w + n)%nat
    ∧ sleeps (trace w')
      = sleeps (trace w) ++ replicate n (expected_delay (ReconnectionTimeout (rp cl)))
    ∧ heap w' !! c = Some cl'
    ∧ open cl' = open cl ∧ alive cl' = alive cl
    ∧ reconnectChannel cl' = reconnectChannel cl.
Proof.
  induction n as [|n IH]; intros w i c cl Hc Hi Hfail; cbn [replicate run].
  - exists w, cl. split; [reflexivity|]. split; [reflexivity|].
    split; [lia|]. split; [now rewrite app_nil_r|]. split; [exact Hc|]. repeat split.
  - pose proof (Hfail 0%nat) as H0. rewrite Nat.add_0_r in H0.
    destruct (tr cl (connects w) (url cl)) as [cn [e|]] eqn:Htr; [|now destruct H0].
    rewrite (bind_Ok _ _ _ _ _ (step_retry_refused _ _ _ _ _ _ Hc Hi Htr)).
    set (w1 := mkWorld _ (goroutines w) _ _).
    destruct (IH w1 i c (set_conn cn cl)) as (w' & cl' & Hrun & Hg & Hn & Hs & Hc' & Hrest).
    + apply lookup_insert_eq.
    + exact Hi.
    + intros k. pose proof (Hfail (S k)) as Hk. rewrite Nat.add_succ_r in Hk.
      exact Hk.
    + exists w', cl'. split; [exact Hrun|]. split; [exact Hg|].
      split; [rewrite Hn; cbn [connects w1]; lia|].
      split; [|split; [exact Hc' | exact Hrest]].
      rewrite Hs. cbn [trace w1 rp set_conn].
      rewrite !sleeps_app, sleeps_failure_events, app_nil_r.
      cbn [sleeps omap]. now rewrite <- app_assoc.
Qed.

Lemma retry_never_gives_up_witness :
  let p := mkPolicy true 10000000 (Some 2%nat) in
  let t : Transport := λ _ _, (None, Some "refused") in
  let w := Samples.redialing t p in
  heap w !! 1%positive = Some (Samples.lost t p)
  ∧ goroutines w !! 0%nat = Some (GoSupervisor 1%positive SupRetry)
  ∧ (∀ k, (t (connects w + k)%nat "ws://h:1/").2 ≠ None)
  ∧ ∃ w' cl',
      run (replicate 4 (Run 0)) w = Ok tt w'
      ∧ goroutines w' = goroutines w
      ∧ connects w' = (connects w + 4)%nat
      ∧ sleeps (trace w') = sleeps (trace w) ++ replicate 4 10000000
      ∧ heap w' !! 1%positive = Some cl'
      ∧ open cl' = true ∧ alive cl' = false
      ∧ reconnectChannel cl' = ChanOpen.
Proof.
  intros p t w. split; [reflexivity|]. split; [reflexivity|].
  split; [intros k; discriminate|].
  apply (retry_never_gives_up 4 w 0%nat 1%positive (Samples.lost t p));
    [reflexivity | reflexivity | intros k; discriminate].
Defined.

(** ** What stays true under every schedule *)

Section HeapInvariant.

Variable R : Client → Client → Prop.
Hypothesis R_refl : ∀ cl, R cl cl.
Hypothesis R_trans : ∀ cl1 cl2 cl3, R cl1 cl2 → R cl2 cl3 → R cl1 cl3.
Hypothesis R_conn : ∀ cn cl, R cl (set_conn cn cl).
Hypothesis R_alive : ∀ b cl, R cl (set_alive b cl).
Hypothesis R_open : ∀ b cl, R cl (set_open b cl).
Hypothesis R_close :
  ∀ cl, reconnectChannel cl = ChanOpen → R cl (set_reconnectChannel ChanClosed cl).

Lemma heap_rel_refl w : heap_rel R w w.
Proof. intros c cl Hc. eauto. Qed.

Lemma heap_rel_trans w1 w2 w3 : heap_rel R w1 w2 → heap_rel R w2 w3 → heap_rel R w1 w3.
Proof.
  intros H1 H2 c cl Hc. destruct (H1 c cl Hc) as (cl2 & Hc2 & HR2).
  destruct (H2 c cl2 Hc2) as (cl3 & Hc3 & HR3). eauto.
Qed.

Lemma heap_rel_same w gs n t : heap_rel R w (mkWorld (heap w) gs n t).
Proof. intros c cl Hc. eauto. Qed.

Lemma heap_rel_update w c cl cl' gs n t :
  heap w !! c = Some cl → R cl cl' →
  heap_rel R w (mkWorld (<[c := cl']> (heap w)) gs n t).
Proof.
  intros Hc HR c0 cl0 Hc0. cbn [heap]. destruct (decide (c = c0)) as [->|Hne].
  - rewrite lookup_insert_eq. exists cl'. split; [reflexivity|]. congruence.
  - rewrite lookup_insert_ne by exact Hne. eauto.
Qed.

Lemma R_connected cn cl : R cl (set_open true (set_alive true (set_conn cn cl))).
Proof. eapply R_trans; [apply R_conn|]. eapply R_trans; [apply R_alive | apply R_open]. Qed.

Lemma Dial_heap_rel w c : heap_rel R w (final (Dial c w)).
Proof.
  destruct (heap w !! c) as [cl|] eqn:Hc.
  - rewrite (Dial_eq _ _ _ Hc). cbn zeta.
    destruct (tr cl (connects w) (url cl)).2; cbn [final];
      apply (heap_rel_update _ _ _ _ _ _ _ Hc); [apply R_conn | apply R_connected].
  - destruct (Dial_nil _ _ Hc) as [msg ->]. apply heap_rel_refl.
Qed.

Lemma retry_once_heap_rel w c : heap_rel R w (final (retry_once c w)).
Proof.
  destruct (heap w !! c) as [cl|] eqn:Hc.
  - rewrite (retry_once_eq _ _ _ Hc). cbn zeta.
    destruct (tr cl (connects w) (url cl)).2; cbn [final];
      apply (heap_rel_update _ _ _ _ _ _ _ Hc); [apply R_conn | apply R_connected].
  - destruct (retry_once_nil _ _ Hc) as [msg ->]. apply heap_rel_refl.
Qed.

Lemma Close_heap_rel w c : heap_rel R w (final (Close c w)).
Proof.
  destruct (heap w !! c) as [cl|] eqn:Hc.
  2:{ destruct (Close_nil _ _ Hc) as [msg ->]. apply heap_rel_refl. }
  destruct (open cl) eqn:Ho.
  2:{ rewrite (Close_not_open _ _ _ Hc Ho). apply heap_rel_refl. }
  destruct (reconnectChannel cl) eqn:Hch.
  - rewrite (Close_nil_channel _ _ _ Hc Ho Hch). cbn [final].
    apply (heap_rel_update _ _ _ _ _ _ _ Hc), R_open.
  - rewrite (Close_open _ _ _ Hc Ho Hch). cbn [final].
    apply (heap_rel_update _ _ _ _ _ _ _ Hc).
    eapply R_trans; [apply R_open|]. eapply R_trans; [|apply R_alive].
    apply R_close. exact Hch.
  - rewrite (Close_closed_channel _ _ _ Hc Ho Hch). cbn [final].
    apply (heap_rel_update _ _ _ _ _ _ _ Hc), R_open.
Qed.

Lemma step_goroutine_heap_rel w i g : heap_rel R w (final (step_goroutine i g w)).
Proof.
  destruct g as [p c|c [|]|c [|]|]; cbn [step_goroutine]; try apply heap_rel_refl.
  - destruct (heap w !! c) as [cl|] eqn:Hc; exec_with Hc; [|apply heap_rel_refl].
    destruct (reconnectChannel cl); exec_with Hc; try apply heap_rel_refl.
    + destruct (find_goroutine _ (goroutines w)); exec_with Hc;
        [apply heap_rel_same | apply heap_rel_refl].
    + apply heap_rel_same.
  - unfold mbind, M_bind, bind.
    pose proof (retry_once_heap_rel w c) as Hf.
    destruct (retry_once c w) as [connected w1|msg w1]; cbn [final] in *; [|exact Hf].
    exact Hf.
  - destruct (heap w !! c) as [cl|] eqn:Hc; exec_with Hc; [|apply heap_rel_refl].
    apply heap_rel_same.
  - destruct (heap w !! c) as [cl|] eqn:Hc; exec_with Hc; [|apply heap_rel_refl].
    destruct (reconnectChannel cl); exec_with Hc; try apply heap_rel_refl.
    destruct (find_goroutine _ (goroutines w)); exec_with Hc;
      [apply heap_rel_same | apply heap_rel_refl].
Qed.

Lemma step_heap_rel a w : heap_rel R w (final (step a w)).
Proof.
  destruct a as [i|c|c|c]; cbn [step].
  - unfold mbind, M_bind, bind, get_goroutines.
    destruct (goroutines w !! i) as [g|].
    + apply step_goroutine_heap_rel.
    + apply heap_rel_refl.
  - unfold mbind, M_bind, bind. pose proof (Dial_heap_rel w c) as Hf.
    destruct (Dial c w); exact Hf.
  - apply Close_heap_rel.
  - unfold report_disconnect.
    destruct (heap w !! c) as [cl|] eqn:Hc; exec_with Hc; [|apply heap_rel_refl].
    destruct (onDisconnection cl) as [[c']|]; exec_with Hc;
      [apply heap_rel_same | apply heap_rel_refl].
Qed.

Lemma run_heap_rel sched : ∀ w, heap_rel R w (final (run sched w)).
Proof.
  induction sched as [|a sched IH]; intros w; cbn [run].
  - apply heap_rel_refl.
  - unfold mbind, M_bind, bind. pose proof (step_heap_rel a w) as Hf.
    destruct (step a w) as [[] w1|msg w1]; cbn [final] in Hf.
    + exact (heap_rel_trans _ _ _ Hf (IH w1)).
    + exact Hf.
Qed.

End HeapInvariant.

Lemma run_chan_after sched w :
  heap_rel (λ cl cl', chan_after (reconnectChannel cl) (reconnectChannel cl'))
    w (final (run sched w)).
Proof.
  apply run_heap_rel.
  - intros cl. now left.
  - intros cl1 cl2 cl3 [H12|[H1 H2]] [H23|[H2' H3]].
    + left. congruence.
    + right. split; congruence.
    + right. split; congruence.
    + congruence.
  - intros cn cl. now left.
  - intros b cl. now left.
  - intros b cl. now left.
  - intros cl Hch. right. now split.
Qed.

Lemma run_config_kept sched w : heap_rel config_kept w (final (run sched w)).
Proof.
  apply run_heap_rel; unfold config_kept.
  - intros cl. repeat split.
  - intros cl1 cl2 cl3 (?&?&?&?&?) (?&?&?&?&?). repeat split; congruence.
  - intros cn cl. repeat split.
  - intros b cl. repeat split.
  - intros b cl. repeat split.
  - intros cl _. repeat split.
Qed.

(** X12. Closing the reconnect channel cannot be undone, and only the build
    makes a channel: under any sequence of [Dial]s, [Close]s, reported
    disconnects and goroutine steps, a closed channel stays closed, a nil
    channel stays nil, and a channel found open was open all along. *)
Theorem channel_is_never_reopened w c cl sched :
  heap w !! c = Some cl →
  ∃ cl',
    heap (final (run sched w)) !! c = Some cl'
    ∧ (reconnectChannel cl = ChanClosed → reconnectChannel cl' = ChanClosed)
    ∧ (reconnectChannel cl = ChanNil → reconnectChannel cl' = ChanNil)
    ∧ (reconnectChannel cl' = ChanOpen → reconnectChannel cl = ChanOpen).
Proof.
  intros Hc. destruct (run_chan_after sched w c cl Hc) as (cl' & Hc' & Hch).
  exists cl'. split; [exact Hc'|].
  destruct Hch as [Heq|[Ho Hcl]]; repeat split; congruence.
Qed.

Lemma channel_is_never_reopened_witness :
  heap Samples.closed !! 1%positive = Some Samples.closed_client
  ∧ ∃ cl',
      heap (final (run [CallDial 1%positive; Disconnected 1%positive; Run 0; Run 4]
                     Samples.closed)) !! 1%positive = Some cl'
      ∧ (reconnectChannel Samples.closed_client = ChanClosed
         → reconnectChannel cl' = ChanClosed)
      ∧ (reconnectChannel Samples.closed_client = ChanNil
         → reconnectChannel cl' = ChanNil)
      ∧ (reconnectChannel cl' = ChanOpen
         → reconnectChannel Samples.closed_client = ChanOpen).
Proof.
  split; [reflexivity|].
  exact (channel_is_never_reopened Samples.closed 1%positive Samples.closed_client
           [CallDial 1%positive; Disconnected 1%positive; Run 0; Run 4] eq_refl).
Defined.

(** X13. What the builder configured is not touched at run time: no [Dial],
    no [Close], no reported disconnect and no step of a goroutine changes the
    transport, the URL, the reconnection policy or the disconnect callback of
    a client, and no client disappears. *)
Theorem configuration_is_fixed w c cl sched :
  heap w !! c = Some cl →
  ∃ cl',
    heap (final (run sched w)) !! c = Some cl'
    ∧ tr cl' = tr cl ∧ url cl' = url cl ∧ rp cl' = rp cl
    ∧ onDisconnection cl' = onDisconnection cl.
Proof.
  intros Hc.
  destruct (run_config_kept sched w c cl Hc) as (cl' & Hc' & Ht & Hu & Hr & _ & Ho).
  exists cl'. repeat split; assumption.
Qed.

Lemma configuration_is_fixed_witness :
  let p := mkPolicy true 0 None in
  let w := Samples.redialing (Samples.refusing 3) p in
  let cl := Samples.lost (Samples.refusing 3) p in
  heap w !! 1%positive = Some cl
  ∧ ∃ cl',
      heap (final (run [Run 0; CallClose 1%positive; Run 0; Run 0] w)) !! 1%positive
        = Some cl'
      ∧ tr cl' = tr cl ∧ url cl' = url cl ∧ rp cl' = rp cl
      ∧ onDisconnection cl' = onDisconnection cl.
Proof.
  intros p w cl. split; [reflexivity|].
  exact (configuration_is_fixed w 1%positive cl
           [Run 0; CallClose 1%positive; Run 0; Run 0] eq_refl).
Defined.

(** X14. After [Close] has closed the channel, the reconnection task returns
    whenever it next stands at its receive, however much happened in between:
    under any schedule, a goroutine of the task found at its receive returns
    at its next step, without an event. *)
Theorem task_returns_at_any_later_receive w c cl sched i :
  heap w !! c = Some cl →
  reconnectChannel cl = ChanClosed →
  goroutines (final (run sched w)) !! i = Some (GoSupervisor c SupRecv) →
  step (Run i) (final (run sched w))
    = Ok tt
        (mkWorld (heap (final (run sched w)))
           (<[i := GoDone]> (goroutines (final (run sched w))))
           (connects (final (run sched w))) (trace (final (run sched w)))).
Proof.
  intros Hc Hch Hi.
  destruct (run_chan_after sched w c cl Hc) as (cl' & Hc' & Hafter).
  assert (reconnectChannel cl' = ChanClosed) as Hch'
    by (destruct Hafter as [?|[? ?]]; congruence).
  rewrite (step_Run _ _ _ Hi). cbn [step_goroutine]. exec_with Hc'.
  now rewrite Hch'.
Qed.

Lemma task_returns_at_any_later_receive_witness :
  let p := mkPolicy true 0 None in
  let cl := mkClient ∅ (Some (signalReconnect 1%positive)) (Some 7%nat) false
              Samples.accepting p ChanClosed "ws://h:1/" false in
  let w := mkWorld {[ 1%positive := cl ]} [GoSupervisor 1%positive SupRetry] 1 [] in
  let w' := final (run [Run 0] w) in
  heap w !! 1%positive = Some cl
  ∧ reconnectChannel cl = ChanClosed
  ∧ goroutines w' !! 0%nat = Some (GoSupervisor 1%positive SupRecv)
  ∧ step (Run 0) w'
    = Ok tt (mkWorld (heap w') (<[0%nat := GoDone]> (goroutines w')) (connects w')
               (trace w')).
Proof.
  intros p cl w w'. do 3 (split; [reflexivity|]).
  exact (task_returns_at_any_later_receive w 1%positive cl [Run 0] 0%nat
           eq_refl eq_refl eq_refl).
Defined.












(** ** The builder, call by call *)

Lemma apply_call_eq cb call w cl :
  heap w !! client cb = Some cl →
  ∃ w',
    apply_call cb call w = Ok cb w'
    ∧ heap w' = <[client cb := configure call cl]> (heap w)
    ∧ goroutines w' = goroutines w
    ∧ connects w' = connects w.
Proof.
  intros Hc.
  destruct call as [t| |timeout|handler|name f onSubError]; cbn [apply_call configure];
    unfold Builder.Transport, Builder.EnableReconnection, Builder.ReconnectionTimeout,
      Builder.OnReconnectionError, Builder.On, methods_On.
  1-4: exec_with Hc; eexists; (split; [reflexivity|]); repeat split.
  destruct (signature_error f) as [e|]; [destruct onSubError as [h|]|];
    exec_with Hc; eexists; (split; [reflexivity|]); cbn;
    rewrite ?(insert_id _ _ _ Hc); repeat split.
Qed.

Lemma chain_eq calls : ∀ cb w cl,
  heap w !! client cb = Some cl →
  ∃ w',
    chain cb calls w = Ok cb w'
    ∧ heap w' = <[client cb := fold_left (flip configure) calls cl]> (heap w)
    ∧ goroutines w' = goroutines w
    ∧ connects w' = connects w.
Proof.
  induction calls as [|call calls IH]; intros cb w cl Hc; cbn [chain fold_left].
  - exists w. split; [reflexivity|]. now rewrite (insert_id _ _ _ Hc).
  - destruct (apply_call_eq cb call w cl Hc) as (w1 & H1 & Hh1 & Hg1 & Hn1).
    destruct (IH cb w1 (configure call cl)) as (w2 & H2 & Hh2 & Hg2 & Hn2).
    { rewrite Hh1. apply lookup_insert_eq. }
    exists w2. split; [rewrite (bind_Ok _ _ _ _ _ H1); exact H2|].
    split; [|split; congruence].
    rewrite Hh2, Hh1. apply insert_insert_eq.
Qed.

Lemma configure_fields call cl :
  conn (configure call cl) = conn cl
  ∧ alive (configure call cl) = alive cl
  ∧ open (configure call cl) = open cl
  ∧ url (configure call cl) = url cl
  ∧ reconnectChannel (configure call cl) = reconnectChannel cl
  ∧ onDisconnection (configure call cl) = onDisconnection cl.
Proof.
  destruct call as [t| |timeout|handler|name f onSubError]; cbn [configure];
    try destruct (signature_error f); repeat split.
Qed.

Lemma configured_fields calls : ∀ cl,
  conn (fold_left (flip configure) calls cl) = conn cl
  ∧ alive (fold_left (flip configure) calls cl) = alive cl
  ∧ open (fold_left (flip configure) calls cl) = open cl
  ∧ url (fold_left (flip configure) calls cl) = url cl
  ∧ reconnectChannel (fold_left (flip configure) calls cl) = reconnectChannel cl
  ∧ onDisconnection (fold_left (flip configure) calls cl) = onDisconnection cl.
Proof.
  induction calls as [|call calls IH]; intros cl; cbn [fold_left]; [repeat split|].
  destruct (IH (flip configure cl call)) as (?&?&?&?&?&?).
  destruct (configure_fields call cl) as (?&?&?&?&?&?).
  unfold flip in *. repeat split; congruence.
Qed.

Lemma configured_Enable calls : ∀ cl,
  Enable (rp (fold_left (flip configure) calls cl)) = true
  ↔ Enable (rp cl) = true ∨ CallEnableReconnection ∈ calls.
Proof.
  induction calls as [|call calls IH]; intros cl; cbn [fold_left].
  - split; [now left | intros [H|H]; [exact H | inversion H]].
  - rewrite IH, elem_of_cons. unfold flip.
    destruct call as [t| |timeout|handler|name f onSubError]; cbn [configure];
      try destruct (signature_error f); cbn; split; intros [H|H]; auto;
      try (destruct H as [H|H]; [discriminate | auto]).
Qed.

Lemma timeouts_cons call calls :
  timeouts (call :: calls)
    = match call with
      | CallReconnectionTimeout d => d :: timeouts calls
      | _ => timeouts calls
      end.
Proof. now destruct call. Qed.

Lemma error_handlers_cons call calls :
  error_handlers (call :: calls)
    = match call with
      | CallOnReconnectionError h => h :: error_handlers calls
      | _ => error_handlers calls
      end.
Proof. now destruct call. Qed.

Lemma transports_cons call calls :
  transports (call :: calls)
    = match call with
      | CallTransport t => t :: transports calls
      | _ => transports calls
      end.
Proof. now destruct call. Qed.

Lemma configured_timeout calls : ∀ cl,
  ReconnectionTimeout (rp (fold_left (flip configure) calls cl))
    = default (ReconnectionTimeout (rp cl)) (last (timeouts calls)).
Proof.
  induction calls as [|call calls IH]; intros cl; cbn [fold_left]; [reflexivity|].
  rewrite IH, timeouts_cons. unfold flip.
  destruct call as [t| |timeout|handler|name f onSubError]; cbn [configure];
    try destruct (signature_error f); try reflexivity.
  rewrite last_cons. now destruct (last (timeouts calls)).
Qed.

Lemma configured_error_handler calls : ∀ cl,
  OnReconnectionError (rp (fold_left (flip configure) calls cl))
    = default (OnReconnectionError (rp cl)) (last (error_handlers calls)).
Proof.
  induction calls as [|call calls IH]; intros cl; cbn [fold_left]; [reflexivity|].
  rewrite IH, error_handlers_cons. unfold flip.
  destruct call as [t| |timeout|handler|name f onSubError]; cbn [configure];
    try destruct (signature_error f); try reflexivity.
  rewrite last_cons. now destruct (last (error_handlers calls)).
Qed.

Lemma configured_transport calls : ∀ cl,
  tr (fold_left (flip configure) calls cl) = default (tr cl) (last (transports calls)).
Proof.
  induction calls as [|call calls IH]; intros cl; cbn [fold_left]; [reflexivity|].
  rewrite IH, transports_cons. unfold flip.
  destruct call as [t| |timeout|handler|name f onSubError]; cbn [configure];
    try destruct (signature_error f); try reflexivity.
  rewrite last_cons. now destruct (last (transports calls)).
Qed.

(** X16. A chain of builder calls never fails and ends on the builder it
    started from. For each of the transport, the timeout and the error
    callback the last call wins, and without a call the value is kept;
    reconnection is enabled exactly when it was before or the chain calls
    [EnableReconnection] (nothing disables it). The chain starts no goroutine,
    calls no transport, and leaves the connection state, the URL, the
    reconnect channel and the disconnect callback of the client alone. *)
Theorem chain_configures w cb calls cl :
  heap w !! client cb = Some cl →
  ∃ w' cl',
    chain cb calls w = Ok cb w'
    ∧ heap w' !! client cb = Some cl'
    ∧ tr cl' = default (tr cl) (last (transports calls))
    ∧ ReconnectionTimeout (rp cl')
      = default (ReconnectionTimeout (rp cl)) (last (timeouts calls))
    ∧ OnReconnectionError (rp cl')
      = default (OnReconnectionError (rp cl)) (last (error_handlers calls))
    ∧ (Enable (rp cl') = true
       ↔ Enable (rp cl) = true ∨ CallEnableReconnection ∈ calls)
    ∧ conn cl' = conn cl ∧ alive cl' = alive cl ∧ open cl' = open cl
    ∧ url cl' = url cl ∧ reconnectChannel cl' = reconnectChannel cl
    ∧ onDisconnection cl' = onDisconnection cl
    ∧ goroutines w' = goroutines w
    ∧ connects w' = connects w
    ∧ (∀ c, c ≠ client cb → heap w' !! c = heap w !! c).
Proof.
  intros Hc. destruct (chain_eq calls cb w cl Hc) as (w' & Hrun & Hh & Hg & Hn).
  exists w', (fold_left (flip configure) calls cl).
  split; [exact Hrun|]. split; [rewrite Hh; apply lookup_insert_eq|].
  split; [apply configured_transport|]. split; [apply configured_timeout|].
  split; [apply configured_error_handler|]. split; [apply configured_Enable|].
  destruct (configured_fields calls cl) as (?&?&?&?&?&?).
  repeat (split; [assumption|]).
  intros c Hne. rewrite Hh. now apply lookup_insert_ne.
Qed.

Lemma chain_configures_witness :
  let p := mkPolicy false 0 None in
  let cl := mkClient ∅ None None false Samples.accepting p ChanNil "" false in
  let w := mkWorld {[ 1%positive := cl ]} [] 0 [] in
  let cb := mkBuilder 1%positive in
  let calls := [CallReconnectionTimeout 5; CallEnableReconnection;
                CallOn "message" (mkHandler 3%nat None) None;
                CallReconnectionTimeout 10000000] in
  heap w !! client cb = Some cl
  ∧ ∃ w' cl',
      chain cb calls w = Ok cb w'
      ∧ heap w' !! client cb = Some cl'
      ∧ tr cl' = Samples.accepting
      ∧ ReconnectionTimeout (rp cl') = 10000000
      ∧ OnReconnectionError (rp cl') = None
      ∧ (Enable (rp cl') = true
         ↔ Enable (rp cl) = true ∨ CallEnableReconnection ∈ calls)
      ∧ conn cl' = conn cl ∧ alive cl' = alive cl ∧ open cl' = open cl
      ∧ url cl' = url cl ∧ reconnectChannel cl' = reconnectChannel cl
      ∧ onDisconnection cl' = onDisconnection cl
      ∧ goroutines w' = goroutines w
      ∧ connects w' = connects w
      ∧ (∀ c, c ≠ client cb → heap w' !! c = heap w !! c).
Proof.
  intros p cl w cb calls. split; [reflexivity|].
  exact (chain_configures w cb calls cl eq_refl).
Defined.

Lemma NewClientBuilder_eq t w0 :
  NewClientBuilder t w0
    = Ok (mkBuilder (fresh (dom (heap w0))))
        (mkWorld
           (<[fresh (dom (heap w0)) :=
                mkClient ∅ None None false t (mkPolicy false 0 None) ChanNil "" false]>
              (heap w0))
           (goroutines w0) (connects w0) (trace w0))
    ∧ heap w0 !! fresh (dom (heap w0)) = None.
Proof.
  split; [reflexivity|]. apply not_elem_of_dom, is_fresh.
Qed.

Lemma BuildToConnect_eq cb u w cl :
  heap w !! client cb = Some cl →
  Builder.BuildToConnect cb u w
    = Ok (client cb)
        (if Enable (rp cl)
         then mkWorld
                (<[client cb :=
                     set_url u
                       (set_onDisconnection (Some (signalReconnect (client cb)))
                          (set_reconnectChannel ChanOpen (set_alive false cl)))]>
                   (heap w))
                (goroutines w ++ [GoSupervisor (client cb) SupRecv]) (connects w)
                (trace w)
         else mkWorld (<[client cb := set_url u (set_alive false cl)]> (heap w))
                (goroutines w) (connects w) (trace w)).
Proof.
  intros Hc. unfold Builder.BuildToConnect, initChannel, runReconnectionTask.
  exec_with Hc. destruct (Enable (rp cl)); exec_with Hc;
    now rewrite !insert_insert_eq.
Qed.

(** The client that [NewClientBuilder] and a chain of calls leave. *)
Lemma configured_client t calls w0 :
  ∃ w2 cl2,
    (cb ← NewClientBuilder t; chain cb calls) w0
      = Ok (mkBuilder (fresh (dom (heap w0)))) w2
    ∧ heap w2 = <[fresh (dom (heap w0)) := cl2]> (heap w0)
    ∧ goroutines w2 = goroutines w0
    ∧ connects w2 = connects w0
    ∧ tr cl2 = default t (last (transports calls))
    ∧ (Enable (rp cl2) = true ↔ CallEnableReconnection ∈ calls)
    ∧ conn cl2 = None ∧ alive cl2 = false ∧ open cl2 = false ∧ url cl2 = ""
    ∧ reconnectChannel cl2 = ChanNil ∧ onDisconnection cl2 = None.
Proof.
  destruct (NewClientBuilder_eq t w0) as [Hnew Hfresh].
  set (c := fresh (dom (heap w0))) in *.
  set (cl0 := mkClient ∅ None None false t (mkPolicy false 0 None) ChanNil "" false) in *.
  set (w1 := mkWorld (<[c := cl0]> (heap w0)) (goroutines w0) (connects w0) (trace w0)) in *.
  destruct (chain_eq calls (mkBuilder c) w1 cl0) as (w2 & Hchain & Hh & Hg & Hn);
    [apply lookup_insert_eq|].
  exists w2, (fold_left (flip configure) calls cl0).
  split; [rewrite (bind_Ok _ _ _ _ _ Hnew); exact Hchain|].
  split; [rewrite Hh; apply insert_insert_eq|]. split; [exact Hg|]. split; [exact Hn|].
  split; [apply configured_transport|].
  split.
  { rewrite configured_Enable. cbn. split; [intros [H|H]; [discriminate|exact H] | auto]. }
  destruct (configured_fields calls cl0) as (?&?&?&?&?&?). repeat split; assumption.
Qed.

Lemma build_eq t calls u w0 :
  ∃ w2 cl2,
    (cb ← NewClientBuilder t; chain cb calls) w0
      = Ok (mkBuilder (fresh (dom (heap w0)))) w2
    ∧ heap w2 !! fresh (dom (heap w0)) = Some cl2
    ∧ build t calls u w0 = Builder.BuildToConnect (mkBuilder (fresh (dom (heap w0)))) u w2.
Proof.
  destruct (configured_client t calls w0) as (w2 & cl2 & Hrun & Hh & _).
  exists w2, cl2. split; [exact Hrun|]. split; [rewrite Hh; apply lookup_insert_eq|].
  unfold build.
  destruct (NewClientBuilder_eq t w0) as [Hnew _].
  rewrite (bind_Ok _ _ _ _ _ Hnew).
  rewrite (bind_Ok _ _ _ _ _ Hnew) in Hrun.
  now rewrite (bind_Ok _ _ _ _ _ Hrun).
Qed.

(** X17. A build whose chain calls [EnableReconnection]: the client is new,
    it gets an open reconnect channel and the disconnect callback, the URL of
    [BuildToConnect] and the transport of the last [Transport] call (the
    default one without such a call); exactly one goroutine is started, the
    reconnection task at its receive; the client is not connected: no
    transport call was made, it is not open and not alive. *)
Theorem build_with_reconnection t calls u w0 :
  CallEnableReconnection ∈ calls →
  ∃ c w' cl,
    build t calls u w0 = Ok c w'
    ∧ heap w0 !! c = None
    ∧ heap w' !! c = Some cl
    ∧ reconnectChannel cl = ChanOpen
    ∧ onDisconnection cl = Some (signalReconnect c)
    ∧ url cl = u
    ∧ tr cl = default t (last (transports calls))
    ∧ open cl = false ∧ alive cl = false ∧ conn cl = None
    ∧ goroutines w' = goroutines w0 ++ [GoSupervisor c SupRecv]
    ∧ connects w' = connects w0
    ∧ (∀ c', c' ≠ c → heap w' !! c' = heap w0 !! c').
Proof.
  intros Hin.
  destruct (configured_client t calls w0)
    as (w2 & cl2 & Hrun & Hh & Hg & Hn & Htr & Hen & Hconn & Halive & Hopen & _).
  destruct (build_eq t calls u w0) as (w2' & cl2' & Hrun' & Hc2 & Hbuild).
  rewrite Hrun in Hrun'. injection Hrun' as <-.
  rewrite Hh, lookup_insert_eq in Hc2. injection Hc2 as <-.
  set (c := fresh (dom (heap w0))) in *.
  assert (heap w2 !! c = Some cl2) as Hc by (rewrite Hh; apply lookup_insert_eq).
  rewrite (BuildToConnect_eq (mkBuilder c) u w2 cl2 Hc) in Hbuild.
  rewrite (proj2 Hen Hin) in Hbuild. cbn [client] in Hbuild.
  eexists c, _, _. split; [exact Hbuild|].
  split; [apply (NewClientBuilder_eq t w0)|].
  cbn [heap goroutines connects]. rewrite lookup_insert_eq.
  split; [reflexivity|]. do 3 (split; [reflexivity|]).
  split; [exact Htr|]. split; [exact Hopen|]. split; [reflexivity|].
  split; [exact Hconn|]. split; [now rewrite Hg|]. split; [exact Hn|].
  intros c' Hne. rewrite lookup_insert_ne by congruence.
  rewrite Hh. now rewrite lookup_insert_ne by congruence.
Qed.

Lemma build_with_reconnection_witness :
  (CallEnableReconnection
     ∈ [CallTransport (Samples.refusing 1); CallEnableReconnection])
  ∧ ∃ c w' cl,
      build Samples.accepting [CallTransport (Samples.refusing 1); CallEnableReconnection]
        "ws://h:1/" empty_world = Ok c w'
      ∧ heap empty_world !! c = None
      ∧ heap w' !! c = Some cl
      ∧ reconnectChannel cl = ChanOpen
      ∧ onDisconnection cl = Some (signalReconnect c)
      ∧ url cl = "ws://h:1/"
      ∧ tr cl = Samples.refusing 1
      ∧ open cl = false ∧ alive cl = false ∧ conn cl = None
      ∧ goroutines w' = [GoSupervisor c SupRecv]
      ∧ connects w' = 0%nat
      ∧ (∀ c', c' ≠ c → heap w' !! c' = heap empty_world !! c').
Proof.
  assert (CallEnableReconnection
            ∈ [CallTransport (Samples.refusing 1); CallEnableReconnection]) as Hin.
  { apply elem_of_cons. right. apply elem_of_cons. now left. }
  split; [exact Hin|].
  exact (build_with_reconnection Samples.accepting _ "ws://h:1/" empty_world Hin).
Defined.

(** What [Dial] returns and leaves, whatever the transport answers. *)
Lemma Dial_result w c cl :
  heap w !! c = Some cl →
  ∃ w'' cl'',
    Dial c w = Ok (tr cl (connects w) (url cl)).2 w''
    ∧ trace w'' = trace w ++ [EvConnect (url cl)]
    ∧ connects w'' = S (connects w)
    ∧ heap w'' !! c = Some cl''
    ∧ conn cl'' = (tr cl (connects w) (url cl)).1
    ∧ open cl''
      = match (tr cl (connects w) (url cl)).2 with
        | Some _ => open cl
        | None => true
        end.
Proof.
  intros Hc. rewrite (Dial_eq _ _ _ Hc). cbn zeta.
  destruct (tr cl (connects w) (url cl)) as [cn [e|]]; cbn [fst snd];
    eexists _, _; (split; [reflexivity|]); cbn [trace connects heap];
    rewrite lookup_insert_eq; repeat split.
Qed.

(** X18. For a default transport and [Transport] arguments that are not nil
    (a nil transport is not a value of [Transport] here; on one, [Dial] would
    panic at its call of [Connect]): [Dial] on a freshly built client makes
    one call to the transport that the chain configured (the default one
    without a [Transport] call), with the URL given to [BuildToConnect], and
    returns the error of that call, nil or not; the connection value of the
    call is stored, and the client is open exactly when that error is nil. *)
Theorem build_then_Dial t calls u w0 :
  ∃ c w' w'' cl'',
    build t calls u w0 = Ok c w'
    ∧ Dial c w' = Ok (default t (last (transports calls)) (connects w0) u).2 w''
    ∧ trace w'' = trace w' ++ [EvConnect u]
    ∧ connects w'' = S (connects w0)
    ∧ heap w'' !! c = Some cl''
    ∧ conn cl'' = (default t (last (transports calls)) (connects w0) u).1
    ∧ open cl''
      = match (default t (last (transports calls)) (connects w0) u).2 with
        | Some _ => false
        | None => true
        end.
Proof.
  destruct (configured_client t calls w0)
    as (w2 & cl2 & Hrun & Hh & Hg & Hn & Htr & Hen & Hconn & Halive & Hopen & _).
  destruct (build_eq t calls u w0) as (w2' & cl2' & Hrun' & Hc2 & Hbuild).
  rewrite Hrun in Hrun'. injection Hrun' as <-.
  rewrite Hh, lookup_insert_eq in Hc2. injection Hc2 as <-.
  set (c := fresh (dom (heap w0))) in *.
  assert (heap w2 !! c = Some cl2) as Hc by (rewrite Hh; apply lookup_insert_eq).
  rewrite (BuildToConnect_eq (mkBuilder c) u w2 cl2 Hc) in Hbuild.
  cbn [client] in Hbuild.
  assert (∃ w' cl',
            build t calls u w0 = Ok c w' ∧ heap w' !! c = Some cl'
            ∧ tr cl' = tr cl2 ∧ url cl' = u ∧ open cl' = open cl2
            ∧ connects w' = connects w2) as (w' & cl' & Hb & Hc' & Ht' & Hu' & Ho' & Hn').
  { destruct (Enable (rp cl2)); eexists _, _; (split; [exact Hbuild|]);
      cbn [heap connects]; rewrite lookup_insert_eq; repeat split. }
  destruct (Dial_result w' c cl' Hc') as (w'' & cl'' & HD & Htrace & Hcount & Hc'' & Hcn & Hop).
  rewrite Ht', Hu', Hn', Htr, Hn in *. rewrite Ho', Hopen in Hop.
  exists c, w', w'', cl''. repeat split; assumption.
Qed.

(** X19. A client taken from the builder with [UnsafeClient] has not been
    through [BuildToConnect]: whatever the chain called, [EnableReconnection]
    included, it has no reconnect channel, no disconnect callback, no
    reconnection task and an empty URL. If its transport accepts the empty
    URL, [Dial] succeeds and the following [Close] panics with "close of nil
    channel". *)
Theorem UnsafeClient_skips_the_build t calls w0 :
  ∃ c w' cl,
    (cb ← NewClientBuilder t; cb' ← chain cb calls; Builder.UnsafeClient cb') w0
      = Ok c w'
    ∧ heap w' !! c = Some cl
    ∧ reconnectChannel cl = ChanNil
    ∧ onDisconnection cl = None
    ∧ url cl = ""
    ∧ goroutines w' = goroutines w0
    ∧ (∀ cn, tr cl (connects w') "" = (cn, None) →
         ∃ w'', (Dial c;; Close c) w' = Panic "close of nil channel" w'').
Proof.
  destruct (configured_client t calls w0)
    as (w2 & cl2 & Hrun & Hh & Hg & Hn & Htr & Hen & Hconn & Halive & Hopen & Hurl
        & Hch & Hcb).
  set (c := fresh (dom (heap w0))) in *.
  assert (heap w2 !! c = Some cl2) as Hc by (rewrite Hh; apply lookup_insert_eq).
  exists c, w2, cl2. split.
  { destruct (NewClientBuilder_eq t w0) as [Hnew _].
    rewrite (bind_Ok _ _ _ _ _ Hnew). rewrite (bind_Ok _ _ _ _ _ Hnew) in Hrun.
    now rewrite (bind_Ok _ _ _ _ _ Hrun). }
  split; [exact Hc|]. split; [exact Hch|]. split; [exact Hcb|]. split; [exact Hurl|].
  split; [exact Hg|].
  intros cn Hacc.
  pose proof (Dial_eq _ _ _ Hc) as HD. cbn zeta in HD. rewrite Hurl, Hacc in HD.
  cbn [fst snd] in HD. rewrite (bind_Ok _ _ _ _ _ HD).
  eexists. apply Close_nil_channel with (cl := set_open true (set_alive true (set_conn cn cl2)));
    [apply lookup_insert_eq | reflexivity | exact Hch].
Qed.

(** ** The URL helper, further *)

Lemma length_append (a b : string) :
  String.length (a +:+ b) = (String.length a + String.length b)%nat.
Proof.
  induction a as [|ch a IH]; [reflexivity|].
  rewrite append_cons. cbn [String.length]. now rewrite IH.
Qed.

Lemma length_query_suffix order :
  String.length (Url.query_suffix order) = sum_list (entry_length <$> order).
Proof.
  induction order as [|[k v] rest IH]; [reflexivity|].
  cbn [Url.query_suffix fmap list_fmap sum_list]. unfold entry_length at 1.
  rewrite !length_append, IH. cbn [String.length fst snd]. unfold id. lia.
Qed.

Lemma GetUrl_eq host port secure params order :
  range_order params order →
  Url.GetUrl host port secure params order
    = (((((if secure then "wss://" else "ws://") +:+ host) +:+ ":") +:+ Itoa port)
         +:+ "/socket.io/?EIO=3&transport=websocket") +:+ Url.query_suffix order.
Proof.
  intros Hp. unfold Url.GetUrl. destruct (0 <? len params) eqn:Hlen.
  - rewrite fold_range_body.
    unfold Url.webSocketSecureProtocol, Url.webSocketProtocol, Url.socketioUrl.
    now destruct secure.
  - assert (len params = 0) as Hz.
    { apply Z.ltb_ge in Hlen. destruct params; simpl in *; lia. }
    rewrite (range_order_empty _ _ Hp Hz). cbn [Url.query_suffix].
    unfold Url.webSocketSecureProtocol, Url.webSocketProtocol, Url.socketioUrl.
    destruct secure; now rewrite append_nil_r.
Qed.

Lemma sum_list_perm (l1 l2 : list nat) : l1 ≡ₚ l2 → sum_list l1 = sum_list l2.
Proof.
  induction 1 as [|x l1 l2 _ IH|x y l|l1 l2 l3 _ IH1 _ IH2]; cbn [sum_list];
    [reflexivity | now rewrite IH | lia | congruence].
Qed.

(** X20. The length of the URL does not depend on the order in which the map
    is iterated: it is the length of the scheme (5 or 6), of the host, of the
    colon, of the decimal port and of the fixed path (37), plus, for each
    entry of the map, the lengths of its key and value and 2 for the ["&"]
    and the ["="]. *)
Theorem GetUrl_length host port secure params order :
  range_order params order →
  String.length (Url.GetUrl host port secure params order)
    = ((if secure then 6 else 5) + String.length host + 1
       + String.length (Itoa port) + 37
       + sum_list (entry_length <$> entries params))%nat.
Proof.
  intros Hp. rewrite (GetUrl_eq _ _ _ _ _ Hp), !length_append, length_query_suffix.
  rewrite (sum_list_perm _ (entry_length <$> entries params))
    by (apply fmap_Permutation; exact Hp).
  destruct secure; cbn [String.length]; lia.
Qed.

Lemma GetUrl_length_witness :
  range_order Samples.params Samples.order
  ∧ String.length (Url.GetUrl "example.org" 8080 true Samples.params Samples.order)
    = ((if true then 6 else 5) + String.length "example.org" + 1
       + String.length (Itoa 8080) + 37
       + sum_list (entry_length <$> entries Samples.params))%nat.
Proof.
  assert (range_order Samples.params Samples.order) as Hp.
  { unfold range_order. vm_compute. apply perm_swap. }
  split; [exact Hp|].
  exact (GetUrl_length "example.org" 8080 true Samples.params Samples.order Hp).
Defined.

(** X22. [GetUrl] does not escape what it appends. A map with the one entry
    [k ↦ v&k'=v'] and the map with the two entries [k ↦ v] and [k' ↦ v'],
    iterated in this order, give the same URL. *)
Theorem GetUrl_does_not_escape host port secure (k v k' v' : string) :
  k ≠ k' →
  range_order (Some {[ k := v +:+ "&" +:+ k' +:+ "=" +:+ v' ]})
    [(k, v +:+ "&" +:+ k' +:+ "=" +:+ v')]
  ∧ range_order (Some (<[ k := v ]> {[ k' := v' ]})) [(k, v); (k', v')]
  ∧ Url.GetUrl host port secure (Some {[ k := v +:+ "&" +:+ k' +:+ "=" +:+ v' ]})
      [(k, v +:+ "&" +:+ k' +:+ "=" +:+ v')]
    = Url.GetUrl host port secure (Some (<[ k := v ]> {[ k' := v' ]}))
        [(k, v); (k', v')].
Proof.
  intros Hne.
  assert (range_order (Some {[ k := v +:+ "&" +:+ k' +:+ "=" +:+ v' ]})
            [(k, v +:+ "&" +:+ k' +:+ "=" +:+ v')]) as H1.
  { unfold range_order. cbn [entries]. now rewrite map_to_list_singleton. }
  assert (range_order (Some (<[ k := v ]> {[ k' := v' ]})) [(k, v); (k', v')]) as H2.
  { unfold range_order. cbn [entries].
    rewrite map_to_list_insert by (now apply lookup_singleton_ne).
    now rewrite map_to_list_singleton. }
  split; [exact H1|]. split; [exact H2|].
  rewrite (GetUrl_eq _ _ _ _ _ H1), (GetUrl_eq _ _ _ _ _ H2). f_equal.
  cbn [Url.query_suffix]. now rewrite !append_assoc, !append_nil_r.
Qed.

Lemma GetUrl_does_not_escape_witness :
  "a" ≠ "b"
  ∧ Url.GetUrl "h" 1 false (Some {[ "a" := "1" +:+ "&" +:+ "b" +:+ "=" +:+ "2" ]})
      [("a", "1" +:+ "&" +:+ "b" +:+ "=" +:+ "2")]
    = Url.GetUrl "h" 1 false (Some (<[ "a" := "1" ]> {[ "b" := "2" ]}))
        [("a", "1"); ("b", "2")].
Proof.
  assert ("a" ≠ "b") as Hne by discriminate.
  split; [exact Hne|].
  exact (proj2 (proj2 (GetUrl_does_not_escape "h" 1 false "a" "1" "b" "2" Hne))).
Defined.
